(** * doopl.factory: the OPL data-marshalling adapter

    A shallow embedding of [src/doopl/factory.py].  The module drives a native
    optimisation engine through a SWIG binding ([doopl.opl]); the binding is
    not part of the Python source, so the engine appears here as an interface
    ([OplEngine]) and every call the Python code issues to it is recorded in
    a log.  Python exceptions are explicit results, mutable attributes of
    [OplModel] are fields of a record that is threaded through a small
    state-and-error monad.

    The interpreter is Python 3: [str] is the text type, the name [unicode]
    is unbound and the guard [sys.version_info[0] == 2 and ...] is false, so
    that branch of the string coercion falls through to the final [else]. *)

From Stdlib Require Import ZArith List String Ascii DecimalString Bool Lia PeanoNat.
Import ListNotations.
Open Scope string_scope.
Open Scope list_scope.
Open Scope Z_scope.

Set Implicit Arguments.

(** ** Python results *)

Inductive exn : Type :=
| ValueError (msg : string)
| TypeError (msg : string)
| IndexError (msg : string)
| OverflowError (msg : string)
| RecursionError
| AttributeError (msg : string)
| KeyError (msg : string)
| EngineError (msg : string).

(** [str(e)], as used by [print(e)]. *)
Definition exn_msg (e : exn) : string :=
  match e with
  | ValueError m | TypeError m | IndexError m | OverflowError m | EngineError m => m
  | AttributeError m | KeyError m => m
  | RecursionError => "maximum recursion depth exceeded"
  end.

Inductive result (A : Type) : Type :=
| Ok (a : A)
| Raise (e : exn).
Arguments Ok {A} a.
Arguments Raise {A} e.

Definition is_ok {A} (r : result A) : bool :=
  match r with Ok _ => true | Raise _ => false end.

(** ** A state monad with exceptions

    A raised exception keeps the state reached so far: Python does not undo
    the mutations performed before the [raise]. *)

Definition M (St A : Type) : Type := St -> result A * St.

Definition ret {St A} (a : A) : M St A := fun s => (Ok a, s).
Definition raise {St A} (e : exn) : M St A := fun s => (Raise e, s).
Definition bind {St A B} (m : M St A) (k : A -> M St B) : M St B :=
  fun s => match m s with
           | (Ok a, s') => k a s'
           | (Raise e, s') => (Raise e, s')
           end.
Definition lift {St A} (r : result A) : M St A := fun s => (r, s).
Definition gets {St A} (f : St -> A) : M St A := fun s => (Ok (f s), s).
Definition modify {St} (f : St -> St) : M St unit := fun s => (Ok tt, f s).

Declare Scope py_scope.
Delimit Scope py_scope with py.
Notation "x <- m ;; k" := (bind m (fun x => k))
  (at level 61, m at next level, right associativity) : py_scope.
Notation "m ;; k" := (bind m (fun _ => k))
  (at level 61, right associativity) : py_scope.
Open Scope py_scope.

(** [for x in l: body(x)] *)
Fixpoint for_each {St A} (l : list A) (body : A -> M St unit) : M St unit :=
  match l with
  | [] => ret tt
  | x :: l' => body x ;; for_each l' body
  end.

(** [for i, x in enumerate(l): body(i, x)], counting from [i]. *)
Fixpoint for_enumerate_from {St A} (i : nat) (l : list A)
         (body : nat -> A -> M St unit) : M St unit :=
  match l with
  | [] => ret tt
  | x :: l' => body i x ;; for_enumerate_from (S i) l' body
  end.
Definition for_enumerate {St A} (l : list A) (body : nat -> A -> M St unit) : M St unit :=
  for_enumerate_from 0 l body.

(** [l[i]] for a non-negative index. *)
Definition index {St A} (l : list A) (i : nat) : M St A :=
  match nth_error l i with
  | Some x => ret x
  | None => raise (IndexError "list index out of range")
  end.

(** [zip] applied to the unpacked rows: the transposition, cut at the
    shortest row; no rows give no columns. *)
Fixpoint all_heads {A} (rows : list (list A)) : option (list A * list (list A)) :=
  match rows with
  | [] => Some ([], [])
  | [] :: _ => None
  | (x :: r) :: rest =>
      match all_heads rest with
      | Some (hs, ts) => Some (x :: hs, r :: ts)
      | None => None
      end
  end.

Fixpoint zip_upto {A} (n : nat) (rows : list (list A)) : list (list A) :=
  match n with
  | O => []
  | S n' =>
      match all_heads rows with
      | Some (hs, ts) => hs :: zip_upto n' ts
      | None => []
      end
  end.

Definition zip_star {A} (rows : list (list A)) : list (list A) :=
  match rows with
  | [] => []
  | r :: _ => zip_upto (List.length r) rows
  end.

(** ** Engine constants *)

Definition OPL_INTEGER : Z := 1.
Definition OPL_FLOAT : Z := 2.
Definition OPL_STRING : Z := 3.

(** ** Tuple schemas, as the binding exposes them

    [ident] stands for the identity of the schema object (the key of
    [_fieldDict]); [columnTypes] is what [_getColumnTypes()] reports; a column
    is a name and, for a composite column, the schema of the sub-tuple. *)

Inductive IloTupleSchema : Type :=
| Schema (ident : nat) (name : string) (key : bool) (columnTypes : list Z)
         (columns : list IloColumn)
with IloColumn : Type :=
| Column (name : string)
| TupleColumn (name : string) (sub : IloTupleSchema).

Definition schema_ident (s : IloTupleSchema) : nat :=
  match s with Schema i _ _ _ _ => i end.
Definition getName (s : IloTupleSchema) : string :=
  match s with Schema _ n _ _ _ => n end.
Definition hasKey (s : IloTupleSchema) : bool :=
  match s with Schema _ _ k _ _ => k end.
Definition _getColumnTypes (s : IloTupleSchema) : list Z :=
  match s with Schema _ _ _ t _ => t end.
Definition schema_columns (s : IloTupleSchema) : list IloColumn :=
  match s with Schema _ _ _ _ c => c end.
Definition column_name (c : IloColumn) : string :=
  match c with Column n | TupleColumn n _ => n end.
Definition column_is_tuple (c : IloColumn) : bool :=
  match c with Column _ => false | TupleColumn _ _ => true end.

Definition getSize (s : IloTupleSchema) : nat := List.length (schema_columns s).
Definition _isTuple (s : IloTupleSchema) (i : nat) : bool :=
  match nth_error (schema_columns s) i with
  | Some c => column_is_tuple c
  | None => false
  end.
Definition _hasSubTuple (s : IloTupleSchema) : bool :=
  existsb column_is_tuple (schema_columns s).
Definition getColumnName (s : IloTupleSchema) (i : nat) : result string :=
  match nth_error (schema_columns s) i with
  | Some c => Ok (column_name c)
  | None => Raise (EngineError "column index out of range")
  end.
Definition _getTupleColumn (s : IloTupleSchema) (i : nat) : result IloTupleSchema :=
  match nth_error (schema_columns s) i with
  | Some (TupleColumn _ sub) => Ok sub
  | _ => Raise (EngineError "column is not a tuple")
  end.

(** [OplModel._fieldDict]: schema object -> column types. *)
Definition fieldDict : Type := list (nat * list Z).

Fixpoint fieldDict_get (d : fieldDict) (k : nat) : option (list Z) :=
  match d with
  | [] => None
  | (k', f) :: d' => if Nat.eqb k k' then Some f else fieldDict_get d' k
  end.

(** [OplModel._getFields] *)
Definition _getFields (d : fieldDict) (schema : IloTupleSchema)
  : (list Z * nat) * fieldDict :=
  match fieldDict_get d (schema_ident schema) with
  | Some f => ((f, List.length f), d)
  | None =>
      let f := _getColumnTypes schema in
      ((f, List.length f), (schema_ident schema, f) :: d)
  end.

(** ** Python scalars

    Floating-point numbers are kept abstract: the adapter only converts to
    them ([float(v)]), prints them ([str(v)]) and compares them with
    [float("inf")]. *)

Class PyFloat (F : Type) : Type := {
  float_str : F -> string;                  (* str(x) *)
  float_of_int : Z -> option F;             (* float(n); None: OverflowError *)
  float_of_string : string -> option F;     (* float(s); None: ValueError *)
  p_inf : F;                                (* float("inf") *)
  float_eqb : F -> F -> bool                (* x == y *)
}.

Section Adapter.

Context {F : Type} {PF : PyFloat F}.

(** The scalars a caller can put in a row.  [PObj] is any other object,
    given by what [str] and [float] make of it. *)
Inductive pyval : Type :=
| PStr (s : string)
| PInt (n : Z)
| PFloat (x : F)
| PBool (b : bool)
| PNone
| PObj (str_ : string) (float_ : option F).

(** The classes that [type(v)] can answer. *)
Inductive pytype : Type := T_str | T_int | T_float | T_bool | T_NoneType | T_object.

Definition type_of (v : pyval) : pytype :=
  match v with
  | PStr _ => T_str
  | PInt _ => T_int
  | PFloat _ => T_float
  | PBool _ => T_bool
  | PNone => T_NoneType
  | PObj _ _ => T_object
  end.

(** [isinstance(v, str)] *)
Definition isinstance_str (v : pyval) : bool :=
  match v with PStr _ => true | _ => false end.

(** [t in {int, float}] *)
Definition in_int_float (t : pytype) : bool :=
  match t with T_int | T_float => true | _ => false end.

(** [str(n)] for an [int]: the decimal numeral, with a leading minus sign
    for a negative number. *)
Definition int_str (n : Z) : string := NilZero.string_of_int (Z.to_int n).

(** [str(v)] *)
Definition py_str (v : pyval) : string :=
  match v with
  | PStr s => s
  | PInt n => int_str n
  | PFloat x => float_str x
  | PBool true => "True"
  | PBool false => "False"
  | PNone => "None"
  | PObj s _ => s
  end.

(** [float(v)] *)
Definition py_float (v : pyval) : result F :=
  match v with
  | PStr s =>
      match float_of_string s with
      | Some x => Ok x
      | None => Raise (ValueError "could not convert string to float")
      end
  | PInt n =>
      match float_of_int n with
      | Some x => Ok x
      | None => Raise (OverflowError "int too large to convert to float")
      end
  | PFloat x => Ok x
  | PBool b =>
      match float_of_int (if b then 1 else 0) with
      | Some x => Ok x
      | None => Raise (OverflowError "int too large to convert to float")
      end
  | PNone => Raise (TypeError "float() argument must be a string or a number")
  | PObj _ (Some x) => Ok x
  | PObj _ None => Raise (TypeError "float() argument must be a string or a number")
  end.

(** Calling an [int] as if it were a function. *)
Definition call_int {A} (callee : Z) (arg : pyval) : result A :=
  Raise (TypeError "'int' object is not callable").

(** ** Values of a named input *)

Inductive input_value : Type :=
| VList (rows : list (list pyval))                  (* isinstance(value, list) *)
| VDataFrame (columns : list (string * list pyval)) (* pandas.DataFrame *)
| VIterable (rows : list (list pyval)).             (* any other iterable of rows *)

(** [value[n]]: the columns of the frame that carry the label [n]. *)
Definition frame_getitem (columns : list (string * list pyval)) (n : string)
  : list (list pyval) :=
  map snd (filter (fun nc => String.eqb n (fst nc)) columns).

(** [value[n].tolist()]: a label carried by one column selects a series,
    which has [tolist]; a repeated label selects a frame, which has not. *)
Definition frame_column (columns : list (string * list pyval)) (n : string)
  : result (list pyval) :=
  match frame_getitem columns n with
  | [] => Raise (KeyError n)
  | [c] => Ok c
  | _ :: _ :: _ => Raise (AttributeError "'DataFrame' object has no attribute 'tolist'")
  end.

(** The list comprehension over the labels [value.columns]. *)
Fixpoint frame_columns (columns : list (string * list pyval)) (labels : list string)
  : result (list (list pyval)) :=
  match labels with
  | [] => Ok []
  | n :: labels' =>
      match frame_column columns n with
      | Raise e => Raise e
      | Ok c =>
          match frame_columns columns labels' with
          | Raise e => Raise e
          | Ok cs => Ok (c :: cs)
          end
      end
  end.

(** [[value[n].tolist() for n in value.columns]] *)
Definition frame_bycolumn (columns : list (string * list pyval))
  : result (list (list pyval)) :=
  frame_columns columns (map fst columns).

(** ** Calls on the engine's data handler

    A tuple set is named by the element it was prepared for; the cell array
    of the row path is the single [IloTupleCellArray] of the input at hand. *)

Inductive dh_call : Type :=
| dh_prepareSet (name : string)
| dh_setIntColumnValues (set : string) (i : nat) (col : list pyval) (size : nat)
| dh_setNumColumnValues (set : string) (i : nat) (col : list pyval) (size : nat)
| dh_setStringColumnValues (set : string) (i : nat) (values : list string) (size : nat)
| dh_fillTupleHash (set : string)
| dh_IloTupleCellArray (size : nat)
| dh_setStringValue (index : nat) (s : string)
| dh_setNumValue (index : nat) (x : F)
| dh_commit (set : string) (flag : bool)
| dh_commit2HashTable (set : string) (flag : bool)
| dh_fillColumns (set : string)
| dh_cells_end.

(** What [MyDataSource.read] acts on: the calls issued so far and the
    session's [_fieldDict]. *)
Record dh_state : Type := {
  dh_calls : list dh_call;
  dh_fields : fieldDict
}.

(** The state after the calls [cs] have been issued. *)
Definition issued (s : dh_state) (cs : list dh_call) : dh_state :=
  {| dh_calls := dh_calls s ++ cs; dh_fields := dh_fields s |}.

Definition call (c : dh_call) : M dh_state unit :=
  modify (fun s => issued s [c]).

Definition getFields (schema : IloTupleSchema) : M dh_state (list Z * nat) :=
  fun s => let (r, d) := _getFields (dh_fields s) schema in
           (Ok r, {| dh_calls := dh_calls s; dh_fields := d |}).

(** [addCell], nested in [read] *)
Definition addCell (index : nat) (f : Z) (v : pyval) : M dh_state unit :=
  if f =? OPL_STRING then
    if isinstance_str v then call (dh_setStringValue index (py_str v))
    else if in_int_float (type_of v) then call (dh_setStringValue index (py_str v))
    else call (dh_setStringValue index (py_str v))
  else
    x <- lift (py_float v) ;;
    call (dh_setNumValue index x).

(** The coercion loop of [fillTupleSet] for one string column.  The loop
    variable of the enclosing [for i, type in enumerate(fields)] is named
    [type]; it is local to [fillTupleSet], so [type(v)] calls the column's
    type code. *)
Definition fill_string_value (type : Z) (v : pyval) : result string :=
  if isinstance_str v then Ok (py_str v)
  else
    match call_int type v with
    | Raise e => Raise e
    | Ok t =>
        if in_int_float t then Ok (py_str v)
        else Ok (py_str v)
    end.

Fixpoint fill_string_values (type : Z) (col : list pyval) : result (list string) :=
  match col with
  | [] => Ok []
  | v :: col' =>
      match fill_string_value type v with
      | Raise e => Raise e
      | Ok s =>
          match fill_string_values type col' with
          | Raise e => Raise e
          | Ok values => Ok (s :: values)
          end
      end
  end.

(** One turn of the loop of [fillTupleSet] over the fields. *)
Definition fill_column (set : string) (bycolumn : list (list pyval)) (size : nat)
           (i : nat) (type : Z) : M dh_state unit :=
  col <- index bycolumn i ;;
  if type =? OPL_INTEGER then call (dh_setIntColumnValues set i col size)
  else if type =? OPL_FLOAT then call (dh_setNumColumnValues set i col size)
  else
    values <- lift (fill_string_values type col) ;;
    call (dh_setStringColumnValues set i values size).

(** [fillTupleSet], nested in [read]; [fields] and [bycolumn] are the
    variables of the enclosing scope. *)
Definition fillTupleSet (set : string) (fields : list Z)
           (bycolumn : list (list pyval)) : M dh_state unit :=
  col0 <- index bycolumn 0 ;;
  let size := List.length col0 in
  for_enumerate fields (fill_column set bycolumn size) ;;
  call (dh_fillTupleHash set).

(** One row of the row loop of [read]: the cells are written in order into
    the shared cell array, then the row is committed. *)
Definition commit_row (set : string) (key : bool) (fields : list Z)
           (v : list pyval) : M dh_state unit :=
  for_enumerate v (fun i t =>
    f <- index fields i ;;
    addCell i f t) ;;
  call (if key then dh_commit set false else dh_commit2HashTable set false).

(** The row loop of [read]. *)
Definition commit_rows (set : string) (key : bool) (fields : list Z)
           (rows : list (list pyval)) : M dh_state unit :=
  for_each rows (commit_row set key fields).

(** The body of the loop of [MyDataSource.read] for one named input.
    [prepare] is the data handler's [_prepareSet] followed by [getSchema]. *)
Definition read_input (prepare : string -> result IloTupleSchema)
           (name : string) (value : input_value) : M dh_state unit :=
  call (dh_prepareSet name) ;;
  schema <- lift (prepare name) ;;
  ff <- getFields schema ;;
  let (fields, fieldsSize) := ff : list Z * nat in
  match value with
  | VList rows => fillTupleSet name fields (zip_star rows)
  | VDataFrame columns =>
      bycolumn <- lift (frame_bycolumn columns) ;;
      fillTupleSet name fields bycolumn
  | VIterable rows =>
      let key := hasKey schema in
      call (dh_IloTupleCellArray fieldsSize) ;;
      commit_rows name key fields rows ;;
      (if negb key then call (dh_fillColumns name) else ret tt) ;;
      call dh_cells_end
  end.

(** [MyDataSource.read] *)
Definition read (prepare : string -> result IloTupleSchema)
           (inputs : list (string * input_value)) : M dh_state unit :=
  for_each inputs (fun nv => read_input prepare (fst nv) (snd nv)).

End Adapter.

Arguments pyval F : clear implicits.
Arguments input_value F : clear implicits.
Arguments dh_call F : clear implicits.
Arguments dh_state F : clear implicits.

(** ** Insertion-ordered dictionaries ([OrderedDict]) *)

Definition odict (V : Type) : Type := list (string * V).

(** [d[k] = v]: a known key keeps its place, a new key goes last. *)
Fixpoint odict_set {V} (d : odict V) (k : string) (v : V) : odict V :=
  match d with
  | [] => [(k, v)]
  | (k', v') :: d' =>
      if String.eqb k k' then (k, v) :: d' else (k', v') :: odict_set d' k v
  end.

Fixpoint odict_get {V} (d : odict V) (k : string) : option V :=
  match d with
  | [] => None
  | (k', v) :: d' => if String.eqb k k' then Some v else odict_get d' k
  end.

(** ** The engine, as seen through the binding *)

Section Engine.

Context {F : Type} {PF : PyFloat F}.

(** A result tuple set: its schema and its typed column readers. *)
Record IloTupleSet : Type := {
  getSchema : IloTupleSchema;
  getIntColumnValues : nat -> list (pyval F);
  getNumColumnValues : nat -> list (pyval F);
  getSymbolColumnValues : nat -> list (pyval F)
}.

(** A model element, by what the adapter asks of it. *)
Record IloOplElement : Type := {
  elt_getName : string;
  isDecisionExpression : bool;
  asNum : F;
  isDiscreteDataCollection : bool;
  isTupleSet : bool;              (* asDiscreteDataCollection().isTupleSet() *)
  asTupleSet : result IloTupleSet
}.

(** A data source attached to the model: the aggregate of the programmatic
    inputs ([IloOplDataSource(MyDataSource(self, self._inputs))]) or a data
    file ([IloOplDataSource(env, path)]). *)
Inductive IloOplDataSource : Type :=
| MyDataSource (inputs : odict (input_value F))
| DatFile (path : string).

(** The engine object [self._opl] with its CP and CPLEX sub-objects.  The
    calls that [__generate] guards with [try] can raise; the others are
    taken to return. *)
Class OplEngine (E : Type) : Type := {
  isGenerated : E -> bool;
  isUsingCP : E -> bool;
  setSkipWarnNeverUsedElements : bool -> E -> result unit * E;
  addDataSource : IloOplDataSource -> E -> result unit * E;
  generate : E -> result unit * E;
  cp_solve : E -> bool * E;                 (* getCP().solve() *)
  cplex_solve : E -> bool * E;              (* getCplex().solve() *)
  postProcess : E -> E;
  hasProfiler : E -> bool;                  (* getSettings().hasProfiler() *)
  printReport : E -> E;                     (* getSettings().getProfiler().printReport() *)
  getElement : string -> E -> option IloOplElement;   (* None: it raises *)
  cp_exportModel : string -> E -> E;
  cplex_exportModel : string -> E -> E;
  _getQualityEnumSize : E -> nat;
  _getQualityEnumName : E -> nat -> string;
  _getQuality : E -> nat -> F;
  isMIP : E -> bool;
  cplex_method : string -> E -> pyval F     (* getCplex().<method>() *)
}.

(** The calls that change the engine, as they are logged. *)
Inductive opl_call : Type :=
| call_setSkipWarnNeverUsedElements (b : bool)
| call_addDataSource (src : IloOplDataSource)
| call_generate
| call_cp_solve
| call_cplex_solve
| call_postProcess
| call_printReport
| call_cp_exportModel (name : string)
| call_cplex_exportModel (name : string).

(** What [get_table] returns: the row tuples, or a frame with its labels. *)
Inductive table : Type :=
| Rows (rep : list (list (pyval F)))
| DataFrame (rep : list (list (pyval F))) (columns : list string).

Context {E : Type} {EN : OplEngine E}.

(** ** class OplModel *)

Record OplModel : Type := {
  _opl : E;
  _inputs : odict (input_value F);
  _datfiles : list string;
  _cplex_quality : option (odict F);
  _cplex_stats : option (odict (pyval F));
  _filename : option string;
  _fieldDict : fieldDict;
  stdout : list string;          (* the lines written by print *)
  opl_calls : list opl_call      (* the engine calls issued so far *)
}.

(** [OplModel.__init__] *)
Definition new_OplModel (opl : E) (filename : option string) : OplModel :=
  {| _opl := opl; _inputs := []; _datfiles := [];
     _cplex_quality := None; _cplex_stats := None;
     _filename := filename; _fieldDict := [];
     stdout := []; opl_calls := [] |}.

Definition with_opl (st : OplModel) (e : E) (c : opl_call) : OplModel :=
  {| _opl := e; _inputs := _inputs st; _datfiles := _datfiles st;
     _cplex_quality := _cplex_quality st; _cplex_stats := _cplex_stats st;
     _filename := _filename st; _fieldDict := _fieldDict st;
     stdout := stdout st; opl_calls := opl_calls st ++ [c] |}.

(** An engine call that can raise. *)
Definition opl_try (c : opl_call) (f : E -> result unit * E) : M OplModel unit :=
  fun st => let (r, e) := f (_opl st) in (r, with_opl st e c).

(** An engine call that returns. *)
Definition opl_do {A} (c : opl_call) (f : E -> A * E) : OplModel -> A * OplModel :=
  fun st => let (a, e) := f (_opl st) in (a, with_opl st e c).

Definition print (line : string) (st : OplModel) : OplModel :=
  {| _opl := _opl st; _inputs := _inputs st; _datfiles := _datfiles st;
     _cplex_quality := _cplex_quality st; _cplex_stats := _cplex_stats st;
     _filename := _filename st; _fieldDict := _fieldDict st;
     stdout := stdout st ++ [line]; opl_calls := opl_calls st |}.

(** [OplModel.set_input] *)
Definition set_input (name : string) (value : option (input_value F))
           (st : OplModel) : OplModel :=
  match value with
  | Some v =>
      {| _opl := _opl st; _inputs := odict_set (_inputs st) name v;
         _datfiles := _datfiles st;
         _cplex_quality := _cplex_quality st; _cplex_stats := _cplex_stats st;
         _filename := _filename st; _fieldDict := _fieldDict st;
         stdout := stdout st; opl_calls := opl_calls st |}
  | None =>
      {| _opl := _opl st; _inputs := _inputs st;
         _datfiles := _datfiles st ++ [name];
         _cplex_quality := _cplex_quality st; _cplex_stats := _cplex_stats st;
         _filename := _filename st; _fieldDict := _fieldDict st;
         stdout := stdout st; opl_calls := opl_calls st |}
  end.

(** [OplModel.__solve] *)
Definition __solve (st : OplModel) : bool * OplModel :=
  if isUsingCP (_opl st) then opl_do call_cp_solve cp_solve st
  else opl_do call_cplex_solve cplex_solve st.

(** The [try] block of [OplModel.__generate]. *)
Definition generate_try : M OplModel unit :=
  generated <- gets (fun st => isGenerated (_opl st)) ;;
  if negb generated then
    opl_try (call_setSkipWarnNeverUsedElements true)
            (setSkipWarnNeverUsedElements true) ;;
    inputs <- gets _inputs ;;
    (if negb (List.length inputs =? 0)%nat then
       let source := MyDataSource inputs in
       opl_try (call_addDataSource source) (addDataSource source)
     else ret tt) ;;
    datfiles <- gets _datfiles ;;
    (if negb (List.length datfiles =? 0)%nat then
       for_each datfiles (fun v =>
         let d := DatFile v in
         opl_try (call_addDataSource d) (addDataSource d))
     else ret tt) ;;
    opl_try call_generate generate
  else ret tt.

(** [OplModel.__generate] *)
Definition __generate (st : OplModel) : bool * OplModel :=
  match generate_try st with
  | (Ok _, st') => (true, st')
  | (Raise e, st') => (false, print (exn_msg e) st')
  end.

(** [OplModel.run] *)
Definition run : M OplModel bool :=
  fun st =>
    let (generated, st1) := __generate st in
    if generated then
      let (solved, st2) := __solve st1 in
      if negb solved then (Ok false, st2)
      else
        let st3 := snd (opl_do call_postProcess (fun e => (tt, postProcess e)) st2) in
        let st4 := if hasProfiler (_opl st3)
                   then snd (opl_do call_printReport (fun e => (tt, printReport e)) st3)
                   else st3 in
        (Ok true, st4)
    else (Raise (ValueError "model was not generated"), st1).

(** [OplModel.get_kpi] *)
Definition get_kpi (name : string) : M OplModel F :=
  fun st =>
    match getElement name (_opl st) with
    | None => (Raise (ValueError (name ++ " is not a valid OPL KPI")%string), st)
    | Some elt =>
        if isDecisionExpression elt then (Ok (asNum elt), st)
        else (Raise (ValueError (name ++ " is not a valid OPL KPI")%string), st)
    end.

Definition set_cplex_quality (st : OplModel) (q : option (odict F)) : OplModel :=
  {| _opl := _opl st; _inputs := _inputs st; _datfiles := _datfiles st;
     _cplex_quality := q; _cplex_stats := _cplex_stats st;
     _filename := _filename st; _fieldDict := _fieldDict st;
     stdout := stdout st; opl_calls := opl_calls st |}.

Definition set_cplex_stats (st : OplModel) (q : option (odict (pyval F))) : OplModel :=
  {| _opl := _opl st; _inputs := _inputs st; _datfiles := _datfiles st;
     _cplex_quality := _cplex_quality st; _cplex_stats := q;
     _filename := _filename st; _fieldDict := _fieldDict st;
     stdout := stdout st; opl_calls := opl_calls st |}.

(** One turn of the loop of [_get_cplex_quality]. *)
Definition quality_step (cplex : E) (ret : odict F) (i : nat) : odict F :=
  if negb (i =? 10)%nat && negb (i =? 11)%nat then
    let name := _getQualityEnumName cplex i in
    let value := _getQuality cplex i in
    if negb (float_eqb value p_inf) then odict_set ret name value else ret
  else ret.

(** The mapping built by [_get_cplex_quality]. *)
Definition quality_dict (cplex : E) : odict F :=
  fold_left (quality_step cplex) (seq 0 (_getQualityEnumSize cplex)) [].

(** [OplModel._get_cplex_quality], behind the property [cplex_quality] *)
Definition _get_cplex_quality : M OplModel (odict F) :=
  fun st =>
    match _cplex_quality st with
    | Some q => (Ok q, st)
    | None =>
        if isUsingCP (_opl st) then
          (Raise (ValueError "Cannot CPLEX specific method use with CPO"), st)
        else
          let ret := quality_dict (_opl st) in
          (Ok ret, set_cplex_quality st (Some ret))
    end.

(** The keys of [_get_cplex_stats] with the CPLEX method read for each. *)
Definition stats_entries : list (string * string) :=
  [ ("Niterations", "getNiterations");
    ("NbarrierIterations", "getNbarrierIterations");
    ("NsiftingIterations", "getNsiftingIterations");
    ("NsiftingPhaseOneIterations", "getNsiftingPhaseOneIterations");
    ("Ncols", "getNcols");
    ("Nrows", "getNrows");
    ("NQCs", "getNQCs");
    ("NSOSs", "getNSOSs");
    ("Nindicators", "getNindicators");
    ("NLCs", "getNLCs");
    ("NUCs", "getNUCs");
    ("NNZs", "getNNZs");
    ("NintVars", "getNintVars");
    ("NbinVars", "getNbinVars");
    ("NsemiContVars", "getNsemiContVars");
    ("NsemiIntVars", "getNsemiIntVars");
    ("BestObjValue", "getBestObjValue");
    ("IncumbentNode", "getIncumbentNode");
    ("NprimalSuperbasics", "getNprimalSuperbasics");
    ("NdualSuperbasics", "getNdualSuperbasics");
    ("NphaseOneIterations", "getNphaseOneIterations");
    ("Nnodes", "getNnodes");
    ("NnodesLeft", "getNnodesLeft");
    ("NcrossPPush", "getNcrossPPush");
    ("NcrossPExch", "getNcrossPExch");
    ("NcrossDPush", "getNcrossDPush");
    ("NcrossDExch", "getNcrossDExch");
    ("isPrimalFeasible", "isPrimalFeasible");
    ("isDualFeasible", "isDualFeasible");
    ("CplexStatus", "getCplexStatus_asInt") ].

Definition mip_entries : list (string * string) :=
  [ ("NMIPStarts", "getNMIPStarts");
    ("MIPRelativeGap", "getMIPRelativeGap");
    ("Cutoff", "getCutoff") ].

Definition stats_step (cplex : E) (ret : odict (pyval F)) (km : string * string)
  : odict (pyval F) :=
  odict_set ret (fst km) (cplex_method (snd km) cplex).

(** The mapping built by [_get_cplex_stats]. *)
Definition stats_dict (cplex : E) : odict (pyval F) :=
  let ret := fold_left (stats_step cplex) stats_entries [] in
  if isMIP cplex then fold_left (stats_step cplex) mip_entries ret else ret.

(** [OplModel._get_cplex_stats], behind the property [cplex_stats] *)
Definition _get_cplex_stats : M OplModel (odict (pyval F)) :=
  fun st =>
    match _cplex_stats st with
    | Some q => (Ok q, st)
    | None =>
        if isUsingCP (_opl st) then
          (Raise (ValueError "Cannot CPLEX specific method use with CPO"), st)
        else
          let ret := stats_dict (_opl st) in
          (Ok ret, set_cplex_stats st (Some ret))
    end.

(** [OplModel._is_tuple_set] *)
Definition _is_tuple_set (name : string) : M OplModel bool :=
  fun st =>
    match getElement name (_opl st) with
    | None =>
        (Raise (ValueError ("Table " ++ name ++ " does not exist in the OPL model.")%string), st)
    | Some elt =>
        if isDiscreteDataCollection elt then
          if isDiscreteDataCollection elt then
            if isTupleSet elt then (Ok true, st) else (Ok false, st)
          else (Ok false, st)
        else (Ok false, st)
    end.

(** Binding a [result] inside a [result]. *)
Definition rbind {A B} (r : result A) (k : A -> result B) : result B :=
  match r with Ok a => k a | Raise e => Raise e end.

(** [sys.getrecursionlimit()], the default. *)
Definition recursion_limit : nat := 1000.

(** [get_names], nested in [__getTupleSet].  [schema] is the variable of
    the enclosing method (the schema of the table), [schem] the argument;
    [depth] is the number of frames the interpreter still grants. *)
Fixpoint get_names (depth : nat) (schema schem : IloTupleSchema)
  : result (list string) :=
  match depth with
  | O => Raise RecursionError
  | S depth' =>
      if negb (_hasSubTuple schem) then
        fold_left (fun names i =>
                     rbind names (fun ns =>
                     rbind (getColumnName schem i) (fun n => Ok (ns ++ [n])%list)))
                  (seq 0 (getSize schem)) (Ok [])
      else
        fold_left (fun names i =>
                     rbind names (fun ns =>
                     if _isTuple schem i then
                       rbind (_getTupleColumn schema i) (fun sub =>
                       rbind (get_names depth' schema sub) (fun subNames =>
                       let subName := getName sub in
                       Ok (ns ++ map (fun n => (subName ++ "." ++ n)%string) subNames)%list))
                     else
                       rbind (getColumnName schem i) (fun n => Ok (ns ++ [n])%list)))
                  (seq 0 (getSize schem)) (Ok [])
  end.

Definition set_fieldDict (st : OplModel) (d : fieldDict) : OplModel :=
  {| _opl := _opl st; _inputs := _inputs st; _datfiles := _datfiles st;
     _cplex_quality := _cplex_quality st; _cplex_stats := _cplex_stats st;
     _filename := _filename st; _fieldDict := d;
     stdout := stdout st; opl_calls := opl_calls st |}.

(** The columns read by [__getTupleSet], one per field, by its type. *)
Fixpoint read_columns (tset : IloTupleSet) (i : nat) (fields : list Z)
  : list (list (pyval F)) :=
  match fields with
  | [] => []
  | type :: fields' =>
      (if type =? OPL_INTEGER then getIntColumnValues tset i
       else if type =? OPL_FLOAT then getNumColumnValues tset i
       else getSymbolColumnValues tset i) :: read_columns tset (S i) fields'
  end.

(** [OplModel.__getTupleSet].  The frame is built from the rows and the
    labels as they are; pandas' own checks are not modelled. *)
Definition __getTupleSet (tset : IloTupleSet) (as_pandas : bool) : M OplModel table :=
  fun st =>
    let schema := getSchema tset in
    let (ff, d) := _getFields (_fieldDict st) schema in
    let st' := set_fieldDict st d in
    let columns := read_columns tset 0 (fst ff) in
    let rep := zip_star columns in
    if negb as_pandas then (Ok (Rows rep), st')
    else
      match get_names recursion_limit schema schema with
      | Ok names => (Ok (DataFrame rep names), st')
      | Raise e => (Raise e, st')
      end.

(** [OplModel.get_table] *)
Definition get_table (name : string) (as_pandas : bool) : M OplModel table :=
  is_ts <- _is_tuple_set name ;;
  if (is_ts : bool) then
    fun st =>
      match getElement name (_opl st) with
      | None => (Raise (EngineError ("no element " ++ name)%string), st)
      | Some elt =>
          match asTupleSet elt with
          | Ok tset => __getTupleSet tset as_pandas st
          | Raise e => (Raise e, st)
          end
      end
  else raise (ValueError (name ++ " is not a TupleSet")%string).

(** [name[-3:]] *)
Definition last3 (name : string) : string :=
  substring (String.length name - 3) 3 name.

(** [extension in {"sav", ".lp", "cpo", "mps"}] *)
Definition extension_allowed (extension : string) : bool :=
  existsb (String.eqb extension) ["sav"; ".lp"; "cpo"; "mps"].

(** [raise("...")]: the operand is a [str], not an exception. *)
Definition raise_str {St A} (msg : string) : M St A :=
  raise (TypeError "exceptions must derive from BaseException").

(** [OplModel.export_model] *)
Definition export_model (name : string) : M OplModel unit :=
  let extension := last3 name in
  if negb (extension_allowed extension) then
    raise_str "can't export: give a correct file engine extension"
  else
    fun st =>
      let (generated, st1) := __generate st in
      if generated then
        if isUsingCP (_opl st1) then
          (Ok tt, snd (opl_do (call_cp_exportModel name)
                              (fun e => (tt, cp_exportModel name e)) st1))
        else
          (Ok tt, snd (opl_do (call_cplex_exportModel name)
                              (fun e => (tt, cplex_exportModel name e)) st1))
      else raise_str "model was not generated" st1.

End Engine.

Arguments IloTupleSet F : clear implicits.
Arguments IloOplElement F : clear implicits.
Arguments IloOplDataSource F : clear implicits.
Arguments OplEngine F E : clear implicits.
Arguments opl_call F : clear implicits.
Arguments table F : clear implicits.
Arguments OplModel F E : clear implicits.

(** ** Descriptions used by the statements *)

Section Descriptions.

Context {F : Type} {PF : PyFloat F}.

(** The batch written for column [i] of type [type]. *)
Definition column_write (set : string) (size i : nat) (type : Z) (col : list (pyval F))
  : dh_call F :=
  if type =? OPL_INTEGER then dh_setIntColumnValues set i col size
  else if type =? OPL_FLOAT then dh_setNumColumnValues set i col size
  else dh_setStringColumnValues set i (map py_str col) size.

(** One batch per field, in field order, from column [i] on. *)
Fixpoint column_writes (set : string) (size i : nat) (fields : list Z)
         (cols : list (list (pyval F))) : list (dh_call F) :=
  match fields, cols with
  | type :: fields', col :: cols' =>
      column_write set size i type col :: column_writes set size (S i) fields' cols'
  | _, _ => []
  end.

(** The columns that [fillTupleSet] accepts: one column per field, and
    only [str] values in the columns that are neither integer nor float. *)
Fixpoint fillable (fields : list Z) (cols : list (list (pyval F))) : bool :=
  match fields, cols with
  | [], _ => true
  | _ :: _, [] => false
  | type :: fields', col :: cols' =>
      ((type =? OPL_INTEGER) || (type =? OPL_FLOAT) || forallb isinstance_str col)
      && fillable fields' cols'
  end.

(** The columns handed to [fillTupleSet] for a bulk value, when the value
    yields them: a frame with a repeated label does not. *)
Definition bulk_columns (value : input_value F) : option (list (list (pyval F))) :=
  match value with
  | VList rows => Some (zip_star rows)
  | VDataFrame columns =>
      match frame_bycolumn columns with
      | Ok bycolumn => Some bycolumn
      | Raise _ => None
      end
  | VIterable _ => None
  end.

(** The write of cell [i], of type [f], for the scalar [t]. *)
Definition cell_write (i : nat) (f : Z) (t : pyval F) : result (dh_call F) :=
  if f =? OPL_STRING then Ok (dh_setStringValue i (py_str t))
  else rbind (py_float t) (fun x => Ok (dh_setNumValue i x)).

(** The cell writes of one row, in column order from column [i] on. *)
Fixpoint row_writes (i : nat) (fields : list Z) (v : list (pyval F)) {struct v}
  : result (list (dh_call F)) :=
  match v with
  | [] => Ok []
  | t :: v' =>
      match fields with
      | [] => Raise (IndexError "list index out of range")
      | f :: fields' =>
          rbind (cell_write i f t) (fun c =>
          rbind (row_writes (S i) fields' v') (fun cs => Ok (c :: cs)))
      end
  end.

(** The commit call chosen by the key of the schema. *)
Definition commit_call (set : string) (key : bool) : dh_call F :=
  if key then dh_commit set false else dh_commit2HashTable set false.

(** The statement "the hash index is rebuilt if and only if the schema
    declares a key", read on the calls issued for the set [name]. *)
Definition hash_rebuilt_iff_key (name : string) (schema : IloTupleSchema)
           (calls : list (dh_call F)) : Prop :=
  In (dh_fillTupleHash name) calls <-> hasKey schema = true.

(** The labels of a schema as the naming convention describes them: a
    plain column keeps its name, a composite column contributes the labels
    of its own sub-schema, each prefixed with the sub-tuple's name and a dot. *)
Fixpoint flatten_names (s : IloTupleSchema) : list string :=
  match s with
  | Schema _ _ _ _ columns =>
      (fix go (cs : list IloColumn) : list string :=
         match cs with
         | [] => []
         | Column n :: cs' => n :: go cs'
         | TupleColumn _ sub :: cs' =>
             (map (fun n => (getName sub ++ "." ++ n)%string) (flatten_names sub)
                ++ go cs')%list
         end) columns
  end.

Context {E : Type} {EN : OplEngine F E}.

(** The public operations of a session. *)
Inductive api_call : Type :=
| api_set_input (name : string) (value : option (input_value F))
| api_run
| api_get_kpi (name : string)
| api_get_table (name : string) (as_pandas : bool)
| api_export_model (name : string)
| api_cplex_stats
| api_cplex_quality.

(** The session after one operation, whether it returned or raised. *)
Definition api_exec (st : OplModel F E) (c : api_call) : OplModel F E :=
  match c with
  | api_set_input name value => set_input name value st
  | api_run => snd (run st)
  | api_get_kpi name => snd (get_kpi name st)
  | api_get_table name as_pandas => snd (get_table name as_pandas st)
  | api_export_model name => snd (export_model name st)
  | api_cplex_stats => snd (_get_cplex_stats st)
  | api_cplex_quality => snd (_get_cplex_quality st)
  end.

Definition api_exec_all (calls : list api_call) (st : OplModel F E) : OplModel F E :=
  fold_left api_exec calls st.

(** The backend of a model does not change under the engine's operations. *)
Definition backend_fixed : Prop :=
  (forall b e, isUsingCP (snd (setSkipWarnNeverUsedElements b e)) = isUsingCP e) /\
  (forall s e, isUsingCP (snd (addDataSource s e)) = isUsingCP e) /\
  (forall e, isUsingCP (snd (generate e)) = isUsingCP e) /\
  (forall e, isUsingCP (snd (cp_solve e)) = isUsingCP e) /\
  (forall e, isUsingCP (snd (cplex_solve e)) = isUsingCP e) /\
  (forall e, isUsingCP (postProcess e) = isUsingCP e) /\
  (forall e, isUsingCP (printReport e) = isUsingCP e) /\
  (forall n e, isUsingCP (cp_exportModel n e) = isUsingCP e) /\
  (forall n e, isUsingCP (cplex_exportModel n e) = isUsingCP e).

(** The engine reports a model as generated once [generate] has returned,
    and solving and post-processing leave that flag set. *)
Definition generation_recorded : Prop :=
  (forall e e', generate e = (Ok tt, e') -> isGenerated e' = true) /\
  (forall e, isGenerated e = true -> isGenerated (snd (cp_solve e)) = true) /\
  (forall e, isGenerated e = true -> isGenerated (snd (cplex_solve e)) = true) /\
  (forall e, isGenerated e = true -> isGenerated (postProcess e) = true) /\
  (forall e, isGenerated e = true -> isGenerated (printReport e) = true).

(** The calls by which [__generate] builds the model. *)
Definition is_generation_call (c : opl_call F) : bool :=
  match c with
  | call_setSkipWarnNeverUsedElements _ | call_addDataSource _ | call_generate => true
  | _ => false
  end.

(** The engine calls issued by an operation that leads from [st] to [st']. *)
Definition new_calls (st st' : OplModel F E) : list (opl_call F) :=
  skipn (List.length (opl_calls st)) (opl_calls st').

(** The statement "a second [run] neither regenerates the model nor
    attaches an input again". *)
Definition second_run_generation_free (st : OplModel F E) : Prop :=
  let st1 := snd (run st) in
  let st2 := snd (run st1) in
  forall c, In c (new_calls st1 st2) -> is_generation_call c = false.

(** The data sources [__generate] attaches: the aggregate of the
    programmatic inputs when there are any, then one per data file. *)
Definition attached_sources (st : OplModel F E) : list (opl_call F) :=
  ((if negb (List.length (_inputs st) =? 0)%nat
    then [call_addDataSource (MyDataSource (_inputs st))] else [])
   ++ map (fun v => call_addDataSource (DatFile v)) (_datfiles st))%list.

(** The solve call of the backend in use. *)
Definition solve_call (st : OplModel F E) : opl_call F :=
  if isUsingCP (_opl st) then call_cp_solve else call_cplex_solve.

(** An operation that leads from [st] to [st'] left the two statistics
    caches and the backend of the engine as they were. *)
Definition frame (st st' : OplModel F E) : Prop :=
  _cplex_stats st' = _cplex_stats st
  /\ _cplex_quality st' = _cplex_quality st
  /\ isUsingCP (_opl st') = isUsingCP (_opl st).

Definition framed {A} (m : M (OplModel F E) A) : Prop :=
  forall st, frame st (snd (m st)).

(** No statistics are cached on a session that uses the CP backend. *)
Definition cp_without_statistics (st : OplModel F E) : Prop :=
  isUsingCP (_opl st) = true -> _cplex_stats st = None /\ _cplex_quality st = None.

(** An operation that leads from [st] to [st'] kept the registered inputs
    and data files and only added to the call log. *)
Definition continues (st st' : OplModel F E) : Prop :=
  _inputs st' = _inputs st
  /\ _datfiles st' = _datfiles st
  /\ exists l, opl_calls st' = opl_calls st ++ l.

Definition continuing {A} (m : M (OplModel F E) A) : Prop :=
  forall st, continues st (snd (m st)).

(** The index [i] of the quality enumeration is kept by [cplex_quality]. *)
Definition quality_kept (cplex : E) (i : nat) : bool :=
  negb (i =? 10)%nat && negb (i =? 11)%nat
  && negb (float_eqb (_getQuality cplex i) p_inf).

End Descriptions.

(** ** A small platform and engine, for concrete runs *)

Module Sample.

(** Numbers with one decimal digit, and infinity. *)
Inductive float : Type :=
| Tenths (z : Z)
| Infinity.

Definition str (x : float) : string :=
  match x with
  | Tenths z => (int_str (z / 10) ++ "." ++ int_str (z mod 10))%string
  | Infinity => "inf"
  end.

Definition eqb (x y : float) : bool :=
  match x, y with
  | Tenths a, Tenths b => (a =? b)%Z
  | Infinity, Infinity => true
  | _, _ => false
  end.

#[global] Instance floats : PyFloat float := {|
  float_str := str;
  float_of_int := fun n => Some (Tenths (10 * n));
  float_of_string := fun s => if String.eqb s "inf" then Some Infinity else None;
  p_inf := Infinity;
  float_eqb := eqb
|}.

(** An engine given by a few flags and tables. *)
Record engine : Type := {
  generated : bool;
  using_cp : bool;
  generate_ok : bool;        (* whether generate() returns *)
  solve_ok : bool;           (* what solve() answers *)
  profiler : bool;
  elements : list (string * IloOplElement float);
  quality : list (string * float);
  solves : nat               (* the number of solves so far *)
}.

Definition mark_generated (e : engine) : engine :=
  {| generated := true; using_cp := using_cp e; generate_ok := generate_ok e;
     solve_ok := solve_ok e; profiler := profiler e; elements := elements e;
     quality := quality e; solves := solves e |}.

Definition count_solve (e : engine) : engine :=
  {| generated := generated e; using_cp := using_cp e; generate_ok := generate_ok e;
     solve_ok := solve_ok e; profiler := profiler e; elements := elements e;
     quality := quality e; solves := S (solves e) |}.

Definition engine_generate (e : engine) : result unit * engine :=
  if generate_ok e then (Ok tt, mark_generated e)
  else (Raise (EngineError "cannot generate the model"), e).

#[global] Instance opl : OplEngine float engine := {|
  isGenerated := generated;
  isUsingCP := using_cp;
  setSkipWarnNeverUsedElements := fun _ e => (Ok tt, e);
  addDataSource := fun _ e => (Ok tt, e);
  generate := engine_generate;
  cp_solve := fun e => (solve_ok e, count_solve e);
  cplex_solve := fun e => (solve_ok e, count_solve e);
  postProcess := fun e => e;
  hasProfiler := profiler;
  printReport := fun e => e;
  getElement := fun name e => odict_get (elements e) name;
  cp_exportModel := fun _ e => e;
  cplex_exportModel := fun _ e => e;
  _getQualityEnumSize := fun e => List.length (quality e);
  _getQualityEnumName := fun e i => fst (nth i (quality e) (EmptyString, Infinity));
  _getQuality := fun e i => snd (nth i (quality e) (EmptyString, Infinity));
  isMIP := fun _ => false;
  cplex_method := fun m e => PInt (Z.of_nat (solves e))
|}.

(** A keyless schema [(int, string, float)], a keyed one, and one with a
    single string column. *)
Definition items_schema : IloTupleSchema :=
  Schema 0 "Items" false [OPL_INTEGER; OPL_STRING; OPL_FLOAT]
         [Column "id"; Column "label"; Column "weight"].
Definition keyed_schema : IloTupleSchema :=
  Schema 1 "Items" true [OPL_INTEGER; OPL_STRING; OPL_FLOAT]
         [Column "id"; Column "label"; Column "weight"].
Definition labels_schema : IloTupleSchema :=
  Schema 2 "Labels" false [OPL_STRING] [Column "label"].

Definition items_rows : list (list (pyval float)) :=
  [ [PInt 1; PStr "a"; PFloat (Tenths 105)];
    [PInt 2; PStr "b"; PFloat (Tenths 200)] ].

(** The same rows as a frame with one labelled column per field. *)
Definition items_frame : list (string * list (pyval float)) :=
  [ ("id", [PInt 1; PInt 2]);
    ("label", [PStr "a"; PStr "b"]);
    ("weight", [PFloat (Tenths 105); PFloat (Tenths 200)]) ].

Definition empty_handler : dh_state float := {| dh_calls := []; dh_fields := [] |}.

(** A schema with composite columns nested two deep:
    [S = <A a, T t>], [A = <int p>], [T = <U u, int x>], [U = <int q>]. *)
Definition schema_A : IloTupleSchema := Schema 11 "A" false [OPL_INTEGER] [Column "p"].
Definition schema_U : IloTupleSchema := Schema 12 "U" false [OPL_INTEGER] [Column "q"].
Definition schema_T : IloTupleSchema :=
  Schema 13 "T" false [OPL_INTEGER; OPL_INTEGER] [TupleColumn "u" schema_U; Column "x"].
Definition schema_S : IloTupleSchema :=
  Schema 14 "S" false [OPL_INTEGER; OPL_INTEGER; OPL_INTEGER]
         [TupleColumn "a" schema_A; TupleColumn "t" schema_T].

(** [R = <int k, V v>], [V = <int y, W w>], [W = <int z>]: the composite
    column of [V] sits at the index of the composite column of [R]. *)
Definition schema_W : IloTupleSchema := Schema 21 "W" false [OPL_INTEGER] [Column "z"].
Definition schema_V : IloTupleSchema :=
  Schema 22 "V" false [OPL_INTEGER; OPL_INTEGER] [Column "y"; TupleColumn "w" schema_W].
Definition schema_R : IloTupleSchema :=
  Schema 23 "R" false [OPL_INTEGER; OPL_INTEGER; OPL_INTEGER]
         [Column "k"; TupleColumn "v" schema_V].

(** Engines: a CPLEX model that generates and solves, a CP model, and a
    model whose generation fails. *)
Definition cplex_engine : engine :=
  {| generated := false; using_cp := false; generate_ok := true; solve_ok := true;
     profiler := false;
     elements :=
       [ ("cost", {| elt_getName := "cost"; isDecisionExpression := true;
                     asNum := Tenths 425; isDiscreteDataCollection := false;
                     isTupleSet := false;
                     asTupleSet := Raise (EngineError "not a tuple set") |});
         ("x", {| elt_getName := "x"; isDecisionExpression := false;
                  asNum := Tenths 0; isDiscreteDataCollection := false;
                  isTupleSet := false;
                  asTupleSet := Raise (EngineError "not a tuple set") |}) ];
     quality := [("MaxPrimalInfeas", Tenths 0); ("MaxDualInfeas", Infinity);
                 ("MaxIntInfeas", Tenths 3)];
     solves := 0 |}.

Definition cp_engine : engine :=
  {| generated := false; using_cp := true; generate_ok := true; solve_ok := true;
     profiler := false; elements := []; quality := []; solves := 0 |}.

Definition failing_engine : engine :=
  {| generated := false; using_cp := false; generate_ok := false; solve_ok := true;
     profiler := false; elements := []; quality := []; solves := 0 |}.


(** A session with one programmatic input and one data file registered. *)
Definition session (e : engine) : OplModel float engine :=
  set_input "data.dat" None
    (set_input "Items" (Some (VList items_rows)) (new_OplModel e (Some "model.mod"))).

End Sample.

(** * Further operations *)

(** ** Transposition *)

(** The width of the narrowest row. *)
Fixpoint min_width {A} (rows : list (list A)) : nat :=
  match rows with
  | [] => 0
  | [r] => List.length r
  | r :: rest => Nat.min (List.length r) (min_width rest)
  end.

(** The row [r] laid in front of the columns [cols], one element each. *)
Fixpoint cons_each {A} (r : list A) (cols : list (list A)) : list (list A) :=
  match r, cols with
  | x :: r', c :: cols' => (x :: c) :: cons_each r' cols'
  | _, _ => []
  end.

(** ** The rest of the engine interface *)

(** The calls of [self._opl] used by [run_seed], [print_relaxation],
    [print_conflict], [compile] and [output_table_names].  They are not
    among the logged calls: the log of a session keeps showing the calls of
    [OplEngine] only. *)
Class OplEngineMore (E : Type) : Type := {
  hasMain : E -> bool;
  runSeed : Z -> E -> E;
  _printRelaxation : E -> Z * E;
  _printConflict : E -> Z * E;
  opl_compile : string -> E -> E;                      (* self._opl.compile(name) *)
  getElementNamesInPostProcessing : E -> list string
}.

Section MoreOperations.

Context {F : Type} {PF : PyFloat F} {E : Type} {EN : OplEngine F E}
        {EM : OplEngineMore E}.

(** The session with its engine replaced, nothing logged. *)
Definition put_opl (st : OplModel F E) (e : E) : OplModel F E :=
  {| _opl := e; _inputs := _inputs st; _datfiles := _datfiles st;
     _cplex_quality := _cplex_quality st; _cplex_stats := _cplex_stats st;
     _filename := _filename st; _fieldDict := _fieldDict st;
     stdout := stdout st; opl_calls := opl_calls st |}.

(** [OplModel.run_seed] *)
Definition run_seed (nb : Z) : M (OplModel F E) unit :=
  fun st =>
    if hasMain (_opl st) then (Raise (ValueError "Model has main"), st)
    else
      ((if negb (isGenerated (_opl st)) then opl_try call_generate generate
        else ret tt) ;;
       modify (fun st' => put_opl st' (runSeed nb (_opl st')))) st.

(** [OplModel.print_relaxation] *)
Definition print_relaxation : M (OplModel F E) Z :=
  fun st =>
    let (generated, st1) := __generate st in
    if generated then
      if isUsingCP (_opl st1) then
        (Raise (ValueError "Relaxations are available only for CPLEX models"), st1)
      else
        let (n, e) := _printRelaxation (_opl st1) in (Ok n, put_opl st1 e)
    else (Raise (ValueError "Can't generate the model to call relaxations"), st1).

(** [OplModel.print_conflict] *)
Definition print_conflict : M (OplModel F E) Z :=
  fun st =>
    let (generated, st1) := __generate st in
    if generated then
      let (n, e) := _printConflict (_opl st1) in (Ok n, put_opl st1 e)
    else (Raise (ValueError "Can't generate the model to call conflicts"), st1).

(** [OplModel.compile]: the answer of [__generate] is dropped. *)
Definition compile (name : string) : M (OplModel F E) unit :=
  fun st =>
    let (_, st1) := __generate st in
    (Ok tt, put_opl st1 (opl_compile name (_opl st1))).

(** The loop of [_get_report_table_names] over the names still to visit. *)
Fixpoint report_table_names_from (names : list string) (rep : list string)
  : M (OplModel F E) (list string) :=
  match names with
  | [] => ret rep
  | name :: names' =>
      fun st =>
        match getElement name (_opl st) with
        | None => (Raise (EngineError ("no element " ++ name)%string), st)
        | Some elt =>
            (is_ts <- _is_tuple_set name ;;
             if (is_ts : bool)
             then report_table_names_from names' (rep ++ [elt_getName elt])
             else report_table_names_from names' rep) st
        end
  end.

(** [OplModel._get_report_table_names], behind [output_table_names] *)
Definition _get_report_table_names : M (OplModel F E) (list string) :=
  fun st =>
    report_table_names_from (getElementNamesInPostProcessing (_opl st)) [] st.

(** ** Publishing a table ([_to_sql]) *)

(** The statements sent to the connection. *)
Inductive sql_call : Type :=
| con_execute (query : string)
| con_execute_rows (query : string) (rows : list (list (pyval F))).

(** The rows of a table; [_to_sql] asks for row tuples. *)
Definition table_rows (t : table F) : list (list (pyval F)) :=
  match t with Rows rep => rep | DataFrame rep _ => rep end.

(** [','.join(['?'] * size)] *)
Definition wildcards (size : nat) : string := String.concat "," (repeat "?" size).

(** [OplModel._to_sql]; [has_table] is the connection's answer, [con] the
    statements it has executed. *)
Definition _to_sql (has_table : string -> bool) (name : string)
           (st : OplModel F E) (con : list sql_call)
  : result unit * OplModel F E * list sql_call :=
  match get_table name false st with
  | (Raise e, st') => (Raise e, st', con)
  | (Ok t, st') =>
      let table := table_rows t in
      if negb (has_table name) then
        (Raise (ValueError ("Table " ++ name ++ " does not exist")%string), st', con)
      else
        let con1 := con ++ [con_execute ("DELETE FROM " ++ name)%string] in
        if negb (List.length table =? 0)%nat then
          let size := List.length (hd [] table) in
          let query := ("INSERT INTO " ++ name ++ " VALUES (" ++ wildcards size ++ ")")%string in
          (Ok tt, st', con1 ++ [con_execute_rows query table])
        else (Ok tt, st', con1)
  end.

(** ** Descriptions used by the further statements *)

(** The reader [__getTupleSet] uses for a column of type [type]. *)
Definition column_reader (tset : IloTupleSet F) (type : Z) (i : nat) : list (pyval F) :=
  if type =? OPL_INTEGER then getIntColumnValues tset i
  else if type =? OPL_FLOAT then getNumColumnValues tset i
  else getSymbolColumnValues tset i.

(** The tuple set [tset] holds the columns [cols] for the fields [fields]. *)
Definition holds_columns (tset : IloTupleSet F) (fields : list Z)
           (cols : list (list (pyval F))) : Prop :=
  List.length fields = List.length cols
  /\ forall i type col, nth_error fields i = Some type -> nth_error cols i = Some col ->
                        column_reader tset type i = col.

(** The element resolves to a tuple set. *)
Definition is_tuple_set_element (elt : IloOplElement F) : bool :=
  isDiscreteDataCollection elt && isTupleSet elt.

(** Every composite column of the schema has a sub-schema without
    composite columns. *)
Definition nested_once (s : IloTupleSchema) : Prop :=
  Forall (fun c => match c with
                   | Column _ => True
                   | TupleColumn _ sub => _hasSubTuple sub = false
                   end) (schema_columns s).

End MoreOperations.

Arguments sql_call F : clear implicits.

(** A sample engine with the rest of the interface. *)
Module SampleMore.

Record engine : Type := {
  base : Sample.engine;
  main : bool;                         (* the model has a main block *)
  post_names : list string             (* the names of the post-processing scope *)
}.

Definition with_base (e : engine) (b : Sample.engine) : engine :=
  {| base := b; main := main e; post_names := post_names e |}.

Definition on_base {A} (f : Sample.engine -> A * Sample.engine) (e : engine)
  : A * engine :=
  let (a, b) := f (base e) in (a, with_base e b).

#[global] Instance opl : OplEngine Sample.float engine := {|
  isGenerated := fun e => isGenerated (base e);
  isUsingCP := fun e => isUsingCP (base e);
  setSkipWarnNeverUsedElements := fun b => on_base (setSkipWarnNeverUsedElements b);
  addDataSource := fun s => on_base (addDataSource s);
  generate := on_base generate;
  cp_solve := on_base cp_solve;
  cplex_solve := on_base cplex_solve;
  postProcess := fun e => with_base e (postProcess (base e));
  hasProfiler := fun e => hasProfiler (base e);
  printReport := fun e => with_base e (printReport (base e));
  getElement := fun name e => getElement name (base e);
  cp_exportModel := fun n e => with_base e (cp_exportModel n (base e));
  cplex_exportModel := fun n e => with_base e (cplex_exportModel n (base e));
  _getQualityEnumSize := fun e => _getQualityEnumSize (base e);
  _getQualityEnumName := fun e i => _getQualityEnumName (base e) i;
  _getQuality := fun e i => _getQuality (base e) i;
  isMIP := fun e => isMIP (base e);
  cplex_method := fun m e => cplex_method m (base e)
|}.

#[global] Instance more : OplEngineMore engine := {|
  hasMain := main;
  runSeed := fun _ e => e;
  _printRelaxation := fun e => (0, e);
  _printConflict := fun e => (0, e);
  opl_compile := fun _ e => e;
  getElementNamesInPostProcessing := post_names
|}.

(** A result table [Result = {<1, "a">, <2, "b">}]. *)
Definition result_schema : IloTupleSchema :=
  Schema 31 "Result" false [OPL_INTEGER; OPL_STRING] [Column "id"; Column "label"].

Definition result_columns : list (list (pyval Sample.float)) :=
  [[PInt 1; PInt 2]; [PStr "a"; PStr "b"]].

Definition result_set : IloTupleSet Sample.float :=
  {| getSchema := result_schema;
     getIntColumnValues := fun i => nth i result_columns [];
     getNumColumnValues := fun i => nth i result_columns [];
     getSymbolColumnValues := fun i => nth i result_columns [] |}.

Definition result_element : IloOplElement Sample.float :=
  {| elt_getName := "Result"; isDecisionExpression := false;
     asNum := Sample.Tenths 0; isDiscreteDataCollection := true;
     isTupleSet := true; asTupleSet := Ok result_set |}.

Definition cost_element : IloOplElement Sample.float :=
  {| elt_getName := "cost"; isDecisionExpression := true;
     asNum := Sample.Tenths 425; isDiscreteDataCollection := false;
     isTupleSet := false; asTupleSet := Raise (EngineError "not a tuple set") |}.



Definition solved_base (cp : bool) : Sample.engine :=
  {| Sample.generated := false; Sample.using_cp := cp; Sample.generate_ok := true;
     Sample.solve_ok := true; Sample.profiler := false;
     Sample.elements := [("Result", result_element); ("cost", cost_element)];
     Sample.quality := []; Sample.solves := 0 |}.

(** Engines: a CPLEX model, a CP model, a model with a main block, and a
    model whose generation fails. *)
Definition cplex_engine : engine :=
  {| base := solved_base false; main := false; post_names := ["Result"; "cost"] |}.
Definition cp_engine : engine :=
  {| base := solved_base true; main := false; post_names := ["Result"; "cost"] |}.
Definition main_engine : engine :=
  {| base := solved_base false; main := true; post_names := [] |}.
Definition failing_engine : engine :=
  {| base := Sample.failing_engine; main := false; post_names := [] |}.
Definition ghost_engine : engine :=
  {| base := solved_base false; main := false; post_names := ["Result"; "ghost"; "cost"] |}.

Definition session (e : engine) : OplModel Sample.float engine :=
  set_input "data.dat" None
    (set_input "Items" (Some (VList Sample.items_rows)) (new_OplModel e (Some "model.mod"))).

End SampleMore.

(** * Properties *)

(** ** The monad *)

Lemma bind_ok {St A B} (m : M St A) (k : A -> M St B) s a s' :
  m s = (Ok a, s') -> bind m k s = k a s'.
Proof. unfold bind; intros ->; reflexivity. Qed.

Lemma bind_raise {St A B} (m : M St A) (k : A -> M St B) s e s' :
  m s = (Raise e, s') -> bind m k s = (Raise e, s').
Proof. unfold bind; intros ->; reflexivity. Qed.

Lemma skipn_cons_nth {A} (l : list A) : forall k x r,
  skipn k l = x :: r -> nth_error l k = Some x /\ skipn (S k) l = r.
Proof.
  induction l as [|y l IH]; intros k x r H.
  - destruct k; discriminate.
  - destruct k as [|k].
    + simpl in H. injection H as -> ->. split; reflexivity.
    + simpl in H. apply IH in H. exact H.
Qed.

Lemma skipn_nil_nth {A} (l : list A) : forall k,
  skipn k l = [] -> nth_error l k = None.
Proof.
  induction l as [|y l IH]; intros k H.
  - destruct k; reflexivity.
  - destruct k as [|k]; [discriminate|]. simpl in *. auto.
Qed.

(** ** The data source adapter *)

Section AdapterProperties.

Context {F : Type} {PF : PyFloat F}.

Implicit Types (st : dh_state F) (v t : pyval F).

Lemma issued_nil st : issued st [] = st.
Proof. destruct st; unfold issued; simpl; rewrite app_nil_r; reflexivity. Qed.

Lemma issued_app st cs cs' : issued (issued st cs) cs' = issued st (cs ++ cs').
Proof. unfold issued; simpl; rewrite app_assoc; reflexivity. Qed.

Lemma call_issued (c : dh_call F) st : call c st = (Ok tt, issued st [c]).
Proof. reflexivity. Qed.

(** In a string column the row path writes [str(v)] for every scalar. *)
Lemma addCell_string (i : nat) v st :
  addCell i OPL_STRING v st = (Ok tt, issued st [dh_setStringValue i (py_str v)]).
Proof.
  unfold addCell. simpl.
  destruct (isinstance_str v); [reflexivity|].
  destruct (in_int_float (type_of v)); reflexivity.
Qed.

Lemma addCell_cell_write (i : nat) (f : Z) v st c :
  cell_write i f v = Ok c -> addCell i f v st = (Ok tt, issued st [c]).
Proof.
  unfold cell_write, addCell.
  destruct (f =? OPL_STRING).
  - intros [= <-].
    destruct (isinstance_str v); [reflexivity|].
    destruct (in_int_float (type_of v)); reflexivity.
  - unfold bind, lift. destruct (py_float v) as [x|e]; simpl; [|discriminate].
    intros [= <-]. reflexivity.
Qed.

(** The coercion loop of the column path accepts [str] values only. *)
Lemma fill_string_values_str (type : Z) (col : list (pyval F)) :
  forallb isinstance_str col = true ->
  fill_string_values type col = Ok (map py_str col).
Proof.
  induction col as [|v col IH]; simpl; [reflexivity|].
  intros H. apply andb_true_iff in H as [Hv Hc].
  unfold fill_string_value. rewrite Hv, (IH Hc). reflexivity.
Qed.

Lemma fill_string_values_other (type : Z) (col : list (pyval F)) :
  forallb isinstance_str col = false ->
  fill_string_values type col = Raise (TypeError "'int' object is not callable").
Proof.
  induction col as [|v col IH]; simpl; [discriminate|].
  intros H. unfold fill_string_value.
  destruct (isinstance_str v); simpl in *; [|reflexivity].
  rewrite (IH H). reflexivity.
Qed.

Lemma fill_column_ok set bycolumn size (i : nat) (type : Z) col st :
  nth_error bycolumn i = Some col ->
  (type =? OPL_INTEGER) || (type =? OPL_FLOAT) || forallb isinstance_str col = true ->
  fill_column set bycolumn size i type st
  = (Ok tt, issued st [column_write set size i type col]).
Proof.
  intros Hn Hc. unfold fill_column, index, column_write, bind. rewrite Hn. simpl.
  destruct (type =? OPL_INTEGER); [reflexivity|].
  destruct (type =? OPL_FLOAT); [reflexivity|].
  simpl in Hc. unfold lift. rewrite (fill_string_values_str _ _ Hc). reflexivity.
Qed.

Lemma fill_columns_ok set bycolumn size : forall fields k st,
  fillable fields (skipn k bycolumn) = true ->
  for_enumerate_from k fields (fill_column set bycolumn size) st
  = (Ok tt, issued st (column_writes set size k fields (skipn k bycolumn))).
Proof.
  induction fields as [|type fields IH]; intros k st H.
  - simpl. rewrite issued_nil. reflexivity.
  - simpl in H. destruct (skipn k bycolumn) as [|col cols] eqn:Hs; [discriminate|].
    apply andb_true_iff in H as [Hc Hf].
    destruct (skipn_cons_nth _ _ Hs) as [Hn Hs'].
    simpl. erewrite bind_ok by (apply fill_column_ok; eassumption).
    rewrite <- Hs' in Hf. rewrite IH by exact Hf.
    rewrite issued_app, Hs'. reflexivity.
Qed.

(** A bulk fill that meets [fillable] writes one batch per field and then
    rebuilds the hash. *)
Lemma fillTupleSet_ok set fields bycolumn st :
  bycolumn <> [] -> fillable fields bycolumn = true ->
  fillTupleSet set fields bycolumn st
  = (Ok tt, issued st (column_writes set (List.length (hd [] bycolumn)) 0 fields bycolumn
                         ++ [dh_fillTupleHash set])).
Proof.
  intros Hne Hf. destruct bycolumn as [|col0 cols]; [congruence|].
  unfold fillTupleSet, index, for_enumerate. simpl nth_error. cbv beta iota.
  unfold bind at 1. unfold ret at 1.
  erewrite bind_ok by (apply (fill_columns_ok set (col0 :: cols) _ fields 0); exact Hf).
  rewrite call_issued, issued_app. reflexivity.
Qed.


Lemma row_cells_ok (fields : list Z) : forall (row : list (pyval F)) (i : nat) ws st,
  row_writes i (skipn i fields) row = Ok ws ->
  for_enumerate_from i row (fun i t => f <- index fields i ;; addCell i f t) st
  = (Ok tt, issued st ws).
Proof.
  induction row as [|t row IH]; intros i ws st H.
  - simpl in H. injection H as <-. simpl. rewrite issued_nil. reflexivity.
  - simpl in H. destruct (skipn i fields) as [|f fs] eqn:Hs; [discriminate|].
    destruct (skipn_cons_nth _ _ Hs) as [Hn Hs'].
    destruct (cell_write i f t) as [c|e] eqn:Hc; simpl in H; [|discriminate].
    rewrite <- Hs' in H.
    destruct (row_writes (S i) (skipn (S i) fields) row) as [cs|e] eqn:Hr;
      simpl in H; [|discriminate].
    injection H as <-.
    simpl. erewrite bind_ok.
    2:{ unfold index. rewrite Hn. unfold bind, ret.
        apply addCell_cell_write. exact Hc. }
    rewrite (IH _ _ _ Hr), issued_app. reflexivity.
Qed.

Lemma commit_row_ok set key (fields : list Z) (row : list (pyval F)) ws st :
  row_writes 0 fields row = Ok ws ->
  commit_row set key fields row st = (Ok tt, issued st (ws ++ [commit_call set key])).
Proof.
  intros H. unfold commit_row, for_enumerate.
  erewrite bind_ok by (apply row_cells_ok; exact H).
  rewrite call_issued, issued_app. reflexivity.
Qed.

Lemma commit_rows_ok set key (fields : list Z) :
  forall (rows : list (list (pyval F))) writes st,
  Forall2 (fun row ws => row_writes 0 fields row = Ok ws) rows writes ->
  commit_rows set key fields rows st
  = (Ok tt, issued st (List.concat (map (fun ws => (ws ++ [commit_call set key])%list) writes))).
Proof.
  intros rows writes st H. revert st.
  induction H as [|v ws rows writes Hv _ IH]; intros st.
  - simpl. rewrite issued_nil. reflexivity.
  - unfold commit_rows in *. simpl.
    erewrite bind_ok by (apply commit_row_ok; exact Hv).
    rewrite IH, issued_app. reflexivity.
Qed.

Lemma getFields_run (schema : IloTupleSchema) st :
  getFields schema st
  = (Ok (fst (_getFields (dh_fields st) schema)),
     {| dh_calls := dh_calls st; dh_fields := snd (_getFields (dh_fields st) schema) |}).
Proof. unfold getFields. destruct (_getFields (dh_fields st) schema); reflexivity. Qed.

Lemma getFields_size (d : fieldDict) (schema : IloTupleSchema) :
  snd (fst (_getFields d schema)) = List.length (fst (fst (_getFields d schema))).
Proof. unfold _getFields. destruct (fieldDict_get d (schema_ident schema)); reflexivity. Qed.

(** On the column path, a column that is neither integer nor float and
    holds a scalar that is not a [str] stops the fill with [TypeError]; the
    batch of that column is not written. *)
Lemma fill_column_rejects_non_str set bycolumn size (i : nat) (type : Z)
      (col : list (pyval F)) st :
  nth_error bycolumn i = Some col ->
  (type =? OPL_INTEGER) = false -> (type =? OPL_FLOAT) = false ->
  forallb isinstance_str col = false ->
  fill_column set bycolumn size i type st
  = (Raise (TypeError "'int' object is not callable"), st).
Proof.
  intros Hn Hi Hf Hc. unfold fill_column, index, bind. rewrite Hn. simpl.
  rewrite Hi, Hf. unfold lift. rewrite (fill_string_values_other _ _ Hc). reflexivity.
Qed.

(** C1, at the input [[(n,)]] for a schema with one string column: the
    column-oriented fill path does not write the decimal rendering of the
    integer [n]; it raises [TypeError] before any batch is written, because
    [type(v)] there calls the loop variable [type].  The row-oriented path
    writes [str(n)] for the same cell. *)
Theorem fill_path_number_in_string_column :
  forall (st : dh_state F) (n : Z),
    fillTupleSet "Labels" [OPL_STRING] (zip_star [[PInt n]]) st
    = (Raise (TypeError "'int' object is not callable"), st)
    /\ commit_row "Labels" false [OPL_STRING] [PInt n] st
       = (Ok tt, issued st [dh_setStringValue 0 (int_str n);
                            dh_commit2HashTable "Labels" false]).
Proof.
  intros st n. split; [reflexivity|].
  change (commit_row "Labels" false [OPL_STRING] [PInt n] st
          = (Ok tt, issued st ([dh_setStringValue 0 (int_str n)]
                                 ++ [commit_call "Labels" false]))).
  apply commit_row_ok. reflexivity.
Qed.

(** *** Data frames and their labels *)

Lemma frame_getitem_unique (columns : list (string * list (pyval F))) :
  NoDup (map fst columns) ->
  forall n c, In (n, c) columns -> frame_getitem columns n = [c].
Proof.
  unfold frame_getitem.
  induction columns as [|[n0 c0] columns IH]; intros Hnd n c Hin; [destruct Hin|].
  inversion Hnd as [|? ? Hnot Hnd']; subst. simpl.
  destruct Hin as [[= -> ->]|Hin].
  - rewrite String.eqb_refl. simpl. f_equal.
    assert (Hnone : filter (fun nc => String.eqb n (fst nc)) columns = []).
    { clear - Hnot. induction columns as [|[n1 c1] columns IH]; [reflexivity|].
      simpl in *. destruct (String.eqb n n1) eqn:Hn.
      - apply String.eqb_eq in Hn. subst n1. tauto.
      - apply IH. tauto. }
    rewrite Hnone. reflexivity.
  - destruct (String.eqb n n0) eqn:Hn.
    + apply String.eqb_eq in Hn. subst n0.
      exfalso. apply Hnot. apply in_map_iff. exists (n, c). auto.
    + apply IH; assumption.
Qed.

(** A frame with pairwise distinct labels yields its columns, in order. *)
Lemma frame_bycolumn_unique (columns : list (string * list (pyval F))) :
  NoDup (map fst columns) -> frame_bycolumn columns = Ok (map snd columns).
Proof.
  intros Hnd. unfold frame_bycolumn.
  assert (H : forall sub, incl sub columns ->
                          frame_columns columns (map fst sub) = Ok (map snd sub)).
  { induction sub as [|[n c] sub IH]; intros Hincl; [reflexivity|].
    simpl. unfold frame_column.
    erewrite frame_getitem_unique; [|exact Hnd|apply Hincl; left; reflexivity].
    rewrite IH; [reflexivity|]. intros x Hx. apply Hincl. right. exact Hx. }
  apply H. apply incl_refl.
Qed.

Lemma frame_column_of_label (columns : list (string * list (pyval F))) (n : string) :
  In n (map fst columns) ->
  (exists c, frame_column columns n = Ok c)
  \/ frame_column columns n
     = Raise (AttributeError "'DataFrame' object has no attribute 'tolist'").
Proof.
  intros Hin. unfold frame_column.
  destruct (frame_getitem columns n) as [|c [|c' cs]] eqn:Hg; [|eauto|auto].
  exfalso. apply in_map_iff in Hin as ([n' c] & Hn & Hin). simpl in Hn. subst n'.
  unfold frame_getitem in Hg.
  assert (Hf : In (n, c) (filter (fun nc => String.eqb n (fst nc)) columns)).
  { apply filter_In. split; [exact Hin|apply String.eqb_refl]. }
  destruct (filter _ columns); [destruct Hf|discriminate].
Qed.

Lemma frame_columns_of_labels (columns : list (string * list (pyval F))) :
  forall labels, incl labels (map fst columns) ->
    (exists cs, frame_columns columns labels = Ok cs
                /\ forall n, In n labels -> exists c, frame_column columns n = Ok c)
    \/ frame_columns columns labels
       = Raise (AttributeError "'DataFrame' object has no attribute 'tolist'").
Proof.
  induction labels as [|n labels IH]; intros Hincl.
  - left. exists []. split; [reflexivity|]. intros n [].
  - simpl.
    destruct (frame_column_of_label columns n) as [[c Hc]|Hc];
      [apply Hincl; left; reflexivity| |rewrite Hc; auto].
    rewrite Hc.
    destruct IH as [[cs [Hcs Hall]]|Hraise];
      [intros x Hx; apply Hincl; right; exact Hx| |rewrite Hraise; auto].
    rewrite Hcs. left. exists (c :: cs). split; [reflexivity|].
    intros n' [<-|Hn']; [eauto|apply Hall; exact Hn'].
Qed.

(** A frame in which two columns carry one label raises [AttributeError]
    while the columns are collected: [read] stops right after the set is
    prepared, before [fillTupleSet]. *)
Lemma frame_with_repeated_label (prepare : string -> result IloTupleSchema)
      (name : string) (schema : IloTupleSchema)
      (pre mid post : list (string * list (pyval F))) (n : string)
      (c1 c2 : list (pyval F)) st :
  prepare name = Ok schema ->
  exists st',
    read_input prepare name (VDataFrame (pre ++ (n, c1) :: mid ++ (n, c2) :: post)) st
    = (Raise (AttributeError "'DataFrame' object has no attribute 'tolist'"), st')
    /\ dh_calls st' = dh_calls st ++ [dh_prepareSet name].
Proof.
  intros Hp. set (columns := pre ++ (n, c1) :: mid ++ (n, c2) :: post).
  assert (Hb : frame_bycolumn columns
               = Raise (AttributeError "'DataFrame' object has no attribute 'tolist'")).
  { unfold frame_bycolumn.
    destruct (@frame_columns_of_labels columns (map fst columns) (incl_refl _))
      as [[cs [_ Hall]]|Hraise]; [|exact Hraise].
    exfalso. destruct (Hall n) as [c Hc].
    { apply in_map_iff. exists (n, c1). split; [reflexivity|].
      unfold columns. apply in_or_app. right. left. reflexivity. }
    unfold frame_column, frame_getitem, columns in Hc.
    rewrite filter_app in Hc. simpl in Hc. rewrite String.eqb_refl in Hc.
    rewrite filter_app in Hc. simpl in Hc. rewrite String.eqb_refl in Hc.
    rewrite !map_app in Hc. simpl in Hc. rewrite map_app in Hc. simpl in Hc.
    destruct (map snd (filter (fun nc => String.eqb n (fst nc)) pre)) as [|x [|y l]];
      simpl in Hc; try discriminate;
      destruct (map snd (filter (fun nc => String.eqb n (fst nc)) mid)) as [|x' l'];
      simpl in Hc; discriminate. }
  unfold read_input.
  rewrite (bind_ok _ _ _ (call_issued _ _)).
  assert (Hl : lift (prepare name) (issued st [dh_prepareSet name])
               = (Ok schema, issued st [dh_prepareSet name])).
  { unfold lift. rewrite Hp. reflexivity. }
  rewrite (bind_ok _ _ _ Hl).
  rewrite (bind_ok _ _ _ (getFields_run _ _)).
  destruct (fst (_getFields _ schema)) as [fields fieldsSize].
  unfold bind, lift. fold columns. rewrite Hb.
  eexists. split; reflexivity.
Qed.
(** C4, as amended: in the column-oriented fill path (a list of rows, or
    a data frame, whose labels are then distinct since a repeated label
    stops [read] before the fill), once every schema column has been
    written as a typed batch the adapter asks for the hash index to be
    rebuilt, whether the schema declares a key or not; the key is not
    consulted on this path. *)
Theorem bulk_fill_rebuilds_hash :
  forall (prepare : string -> result IloTupleSchema) (name : string)
         (schema : IloTupleSchema) (value : input_value F)
         (bycolumn : list (list (pyval F))) (st : dh_state F),
    prepare name = Ok schema ->
    bulk_columns value = Some bycolumn ->
    bycolumn <> [] ->
    fillable (fst (fst (_getFields (dh_fields st) schema))) bycolumn = true ->
    exists st',
      read_input prepare name value st = (Ok tt, st')
      /\ dh_calls st'
         = dh_calls st
             ++ [dh_prepareSet name]
             ++ column_writes name (List.length (hd [] bycolumn)) 0
                  (fst (fst (_getFields (dh_fields st) schema))) bycolumn
             ++ [dh_fillTupleHash name]
      /\ In (dh_fillTupleHash name) (dh_calls st').
Proof.
  intros prepare name schema value bycolumn st Hp Hv Hne Hf.
  unfold read_input.
  rewrite (bind_ok _ _ _ (call_issued _ _)).
  assert (Hl : lift (prepare name) (issued st [dh_prepareSet name])
               = (Ok schema, issued st [dh_prepareSet name])).
  { unfold lift. rewrite Hp. reflexivity. }
  rewrite (bind_ok _ _ _ Hl).
  rewrite (bind_ok _ _ _ (getFields_run _ _)).
  change (dh_fields (issued st [dh_prepareSet name])) with (dh_fields st).
  change (dh_calls (issued st [dh_prepareSet name]))
    with (dh_calls st ++ [dh_prepareSet name]).
  destruct (_getFields (dh_fields st) schema) as [[fields fieldsSize] d] eqn:Hg.
  simpl in Hf. cbn [fst snd].
  set (st1 := {| dh_calls := dh_calls st ++ [dh_prepareSet name]; dh_fields := d |}).
  assert (Hfill : fillTupleSet name fields bycolumn st1
                  = (Ok tt, issued st1 (column_writes name (List.length (hd [] bycolumn))
                                          0 fields bycolumn ++ [dh_fillTupleHash name])))
    by (apply fillTupleSet_ok; assumption).
  exists (issued st1 (column_writes name (List.length (hd [] bycolumn)) 0 fields bycolumn
                        ++ [dh_fillTupleHash name])).
  split; [|split].
  - destruct value as [rows|columns|rows]; simpl in Hv.
    + injection Hv as <-. exact Hfill.
    + destruct (frame_bycolumn columns) as [b|e]; [|discriminate].
      injection Hv as <-. exact Hfill.
    + discriminate.
  - simpl. rewrite <- !app_assoc. reflexivity.
  - simpl. rewrite !in_app_iff. right. right. left. reflexivity.
Qed.

(** C5: in the row-oriented commit path every row is written cell by cell
    in column order and then committed; a keyed schema commits with
    [commit], a keyless one with [commit2HashTable] and is closed by
    [fillColumns]. *)
Theorem row_path_commits_by_key :
  forall (prepare : string -> result IloTupleSchema) (name : string)
         (schema : IloTupleSchema) (rows : list (list (pyval F)))
         (writes : list (list (dh_call F))) (st : dh_state F),
    prepare name = Ok schema ->
    Forall2 (fun row ws =>
               row_writes 0 (fst (fst (_getFields (dh_fields st) schema))) row = Ok ws)
            rows writes ->
    exists st',
      read_input prepare name (VIterable rows) st = (Ok tt, st')
      /\ dh_calls st'
         = dh_calls st
             ++ [dh_prepareSet name;
                 dh_IloTupleCellArray
                   (List.length (fst (fst (_getFields (dh_fields st) schema))))]
             ++ List.concat (map (fun ws =>
                               (ws ++ [if hasKey schema
                                       then dh_commit name false
                                       else dh_commit2HashTable name false])%list)
                            writes)
             ++ (if hasKey schema then [] else [dh_fillColumns name])
             ++ [dh_cells_end].
Proof.
  intros prepare name schema rows writes st Hp Hw.
  unfold read_input.
  rewrite (bind_ok _ _ _ (call_issued _ _)).
  assert (Hl : lift (prepare name) (issued st [dh_prepareSet name])
               = (Ok schema, issued st [dh_prepareSet name])).
  { unfold lift. rewrite Hp. reflexivity. }
  rewrite (bind_ok _ _ _ Hl).
  rewrite (bind_ok _ _ _ (getFields_run _ _)).
  change (dh_fields (issued st [dh_prepareSet name])) with (dh_fields st).
  change (dh_calls (issued st [dh_prepareSet name]))
    with (dh_calls st ++ [dh_prepareSet name]).
  pose proof (getFields_size (dh_fields st) schema) as Hsz.
  destruct (_getFields (dh_fields st) schema) as [[fields fieldsSize] d] eqn:Hg.
  simpl in Hw, Hsz. cbn [fst snd]. subst fieldsSize.
  rewrite (bind_ok _ _ _ (call_issued _ _)).
  erewrite bind_ok by (apply commit_rows_ok; exact Hw).
  unfold commit_call.
  destruct (hasKey schema); simpl negb; cbv iota.
  - unfold bind at 1, ret at 1. rewrite call_issued.
    eexists. split; [reflexivity|].
    simpl. rewrite <- !app_assoc. reflexivity.
  - rewrite (bind_ok _ _ _ (call_issued _ _)). rewrite call_issued.
    eexists. split; [reflexivity|].
    simpl. rewrite <- !app_assoc. reflexivity.
Qed.

End AdapterProperties.

(** ** The model session *)

Section SessionProperties.

Context {F : Type} {PF : PyFloat F} {E : Type} {EN : OplEngine F E}.

Implicit Types (st : OplModel F E).

Lemma skipn_app_length {A} (l l' : list A) : skipn (List.length l) (l ++ l') = l'.
Proof. induction l; simpl; auto. Qed.

(** *** Generation *)

Lemma generate_outcome st :
  (exists st', generate_try st = (Ok tt, st') /\ __generate st = (true, st'))
  \/ (exists e st', generate_try st = (Raise e, st')
                    /\ __generate st = (false, print (exn_msg e) st')).
Proof.
  unfold __generate. destruct (generate_try st) as [[[]|e] st'].
  - left. eauto.
  - right. eauto.
Qed.

Lemma generate_try_generated st :
  isGenerated (_opl st) = true -> generate_try st = (Ok tt, st).
Proof.
  intros H. unfold generate_try, bind, gets. rewrite H. reflexivity.
Qed.

Lemma bind_inv {St A B} (m : M St A) (k : A -> M St B) s b s2 :
  bind m k s = (Ok b, s2) ->
  exists a s1, m s = (Ok a, s1) /\ k a s1 = (Ok b, s2).
Proof.
  unfold bind. destruct (m s) as [[a|e] s1]; [eauto|discriminate].
Qed.

Lemma opl_try_inv (c : opl_call F) (f : E -> result unit * E) st u st' :
  opl_try c f st = (Ok u, st') ->
  exists e, f (_opl st) = (Ok tt, e) /\ st' = with_opl st e c.
Proof.
  unfold opl_try. destruct (f (_opl st)) as [[[]|e0] e]; [|discriminate].
  intros [= _ <-]. eauto.
Qed.

Lemma attach_files_ok : forall (files : list string) st u st',
  for_each files (fun v => let d := DatFile v in
                           opl_try (call_addDataSource d) (addDataSource d)) st
  = (Ok u, st') ->
  opl_calls st' = opl_calls st ++ map (fun v => call_addDataSource (DatFile v)) files.
Proof.
  induction files as [|v files IH]; intros st u st' H.
  - simpl in H. injection H as _ <-. rewrite app_nil_r. reflexivity.
  - simpl in H. apply bind_inv in H as (a & s1 & H1 & H).
    apply opl_try_inv in H1 as (e & _ & ->).
    apply IH in H. rewrite H. simpl. rewrite <- app_assoc. reflexivity.
Qed.

(** A generation that goes through issues the settings call, attaches the
    sources and calls [generate], which returns. *)
Lemma generate_try_fresh st st' :
  isGenerated (_opl st) = false ->
  generate_try st = (Ok tt, st') ->
  opl_calls st'
  = opl_calls st ++ call_setSkipWarnNeverUsedElements true
      :: attached_sources st ++ [call_generate]
  /\ exists e, generate e = (Ok tt, _opl st').
Proof.
  intros Hg H. unfold generate_try in H.
  apply bind_inv in H as (g & s0 & H0 & H).
  unfold gets in H0. injection H0 as <- <-. rewrite Hg in H. simpl negb in H.
  cbv iota in H.
  apply bind_inv in H as (u1 & s1 & H1 & H).
  apply opl_try_inv in H1 as (e1 & _ & ->).
  apply bind_inv in H as (inputs & s2 & H2 & H).
  unfold gets in H2. injection H2 as <- <-.
  apply bind_inv in H as (u3 & s3 & H3 & H).
  apply bind_inv in H as (datfiles & s4 & H4 & H).
  unfold gets in H4. injection H4 as <- <-.
  apply bind_inv in H as (u5 & s5 & H5 & H).
  apply opl_try_inv in H as (e6 & Hgen & ->).
  simpl _inputs in H3.
  set (st1 := with_opl st e1 (call_setSkipWarnNeverUsedElements true)) in *.
  assert (H3' : opl_calls s3 = opl_calls st1
                  ++ (if negb (List.length (_inputs st) =? 0)%nat
                      then [call_addDataSource (MyDataSource (_inputs st))] else [])
                /\ _datfiles s3 = _datfiles st).
  { destruct (negb (List.length (_inputs st) =? 0)%nat).
    - apply opl_try_inv in H3 as (e3 & _ & ->). auto.
    - unfold ret in H3. injection H3 as _ <-. simpl. rewrite app_nil_r. auto. }
  destruct H3' as [Hc3 Hd3]. rewrite Hd3 in H5.
  assert (H5' : opl_calls s5
                = opl_calls s3 ++ map (fun v => call_addDataSource (DatFile v)) (_datfiles st)).
  { destruct (negb (List.length (_datfiles st) =? 0)%nat) eqn:Hn.
    - apply attach_files_ok in H5. exact H5.
    - apply negb_false_iff, Nat.eqb_eq in Hn.
      destruct (_datfiles st); [|discriminate].
      unfold ret in H5. injection H5 as _ <-. simpl. rewrite app_nil_r. reflexivity. }
  split; [|simpl; eauto].
  simpl. rewrite H5', Hc3. unfold attached_sources. simpl.
  rewrite <- !app_assoc. reflexivity.
Qed.

(** *** Solving *)

Lemma solve_run st :
  exists e, __solve st = (fst (__solve st), with_opl st e (solve_call st))
            /\ (e = snd (cp_solve (_opl st)) \/ e = snd (cplex_solve (_opl st))).
Proof.
  unfold __solve, solve_call, opl_do.
  destruct (isUsingCP (_opl st)).
  - destruct (cp_solve (_opl st)) as [b e]. exists e. simpl. auto.
  - destruct (cplex_solve (_opl st)) as [b e]. exists e. simpl. auto.
Qed.

Lemma solve_calls st : opl_calls (snd (__solve st)) = opl_calls st ++ [solve_call st].
Proof.
  destruct (solve_run st) as [e [H _]]. rewrite H. reflexivity.
Qed.

(** The state and the calls of a run whose generation went through. *)
Lemma run_generated st st1 :
  __generate st = (true, st1) ->
  let st2 := snd (__solve st1) in
  (fst (__solve st1) = false -> run st = (Ok false, st2))
  /\ (fst (__solve st1) = true ->
      fst (run st) = Ok true
      /\ opl_calls (snd (run st))
         = opl_calls st1 ++ [solve_call st1; call_postProcess]
             ++ (if hasProfiler (postProcess (_opl st2)) then [call_printReport] else [])).
Proof.
  intros Hg st2. unfold run. rewrite Hg.
  pose proof (solve_calls st1) as Hc. fold st2 in Hc.
  destruct (__solve st1) as [solved st2'] eqn:Hs. simpl in st2. subst st2.
  simpl fst. split; intros ->; simpl negb; cbv iota.
  - reflexivity.
  - split; [reflexivity|]. unfold opl_do. simpl.
    destruct (hasProfiler (postProcess (_opl st2'))); simpl; rewrite Hc;
      rewrite <- !app_assoc; reflexivity.
Qed.


(** *** A second run *)

Lemma generate_try_sets_flag st st' :
  generation_recorded ->
  generate_try st = (Ok tt, st') -> isGenerated (_opl st') = true.
Proof.
  intros Hrec H. destruct (isGenerated (_opl st)) eqn:Hg.
  - rewrite (generate_try_generated _ Hg) in H. injection H as <-. exact Hg.
  - destruct (generate_try_fresh _ Hg H) as [_ [e He]].
    destruct Hrec as [Hgen _]. exact (Hgen _ _ He).
Qed.

Lemma run_keeps_generated st st1 :
  generation_recorded ->
  __generate st = (true, st1) -> isGenerated (_opl st1) = true ->
  isGenerated (_opl (snd (run st))) = true.
Proof.
  intros (_ & Hcp & Hcplex & Hpost & Hprint) Hg H1.
  unfold run. rewrite Hg. unfold __solve, opl_do.
  destruct (isUsingCP (_opl st1)).
  - pose proof (Hcp _ H1) as H2. destruct (cp_solve (_opl st1)) as [[] e]; simpl in *.
    + destruct (hasProfiler (postProcess e)); simpl; auto.
    + exact H2.
  - pose proof (Hcplex _ H1) as H2. destruct (cplex_solve (_opl st1)) as [[] e]; simpl in *.
    + destruct (hasProfiler (postProcess e)); simpl; auto.
    + exact H2.
Qed.

Lemma run_new_calls_generated st :
  isGenerated (_opl st) = true ->
  forall c, In c (new_calls st (snd (run st))) -> is_generation_call c = false.
Proof.
  intros Hg c Hin.
  assert (Hgen : __generate st = (true, st)).
  { unfold __generate. rewrite (generate_try_generated _ Hg). reflexivity. }
  pose proof (run_generated _ Hgen) as Hr. cbv zeta in Hr. destruct Hr as [Hf Ht].
  unfold new_calls in Hin.
  destruct (fst (__solve st)) eqn:Hs.
  - destruct (Ht eq_refl) as [_ Hc]. rewrite Hc, skipn_app_length in Hin.
    simpl in Hin. destruct Hin as [<-|[<-|Hin]].
    + unfold solve_call. destruct (isUsingCP (_opl st)); reflexivity.
    + reflexivity.
    + destruct (hasProfiler _); simpl in Hin; [destruct Hin as [<-|[]]; reflexivity|tauto].
  - rewrite (Hf eq_refl) in Hin. simpl snd in Hin.
    rewrite solve_calls, skipn_app_length in Hin.
    simpl in Hin. destruct Hin as [<-|[]].
    unfold solve_call. destruct (isUsingCP (_opl st)); reflexivity.
Qed.

(** *** What a run keeps *)

Lemma continues_refl st : continues st st.
Proof. unfold continues. repeat split. exists []. rewrite app_nil_r. reflexivity. Qed.

Lemma continues_trans st1 st2 st3 :
  continues st1 st2 -> continues st2 st3 -> continues st1 st3.
Proof.
  unfold continues. intros (Hi & Hd & l & Hl) (Hi' & Hd' & l' & Hl').
  repeat split; try congruence.
  exists (l ++ l'). rewrite Hl', Hl, app_assoc. reflexivity.
Qed.

Lemma continues_with_opl st (e : E) (c : opl_call F) : continues st (with_opl st e c).
Proof. unfold continues. simpl. repeat split. exists [c]. reflexivity. Qed.

Lemma continuing_ret {A} (a : A) : continuing (ret a : M (OplModel F E) A).
Proof. intros st. apply continues_refl. Qed.

Lemma continuing_gets {A} (f : OplModel F E -> A) : continuing (gets f).
Proof. intros st. apply continues_refl. Qed.

Lemma continuing_bind {A B} (m : M (OplModel F E) A) (k : A -> M (OplModel F E) B) :
  continuing m -> (forall a, continuing (k a)) -> continuing (bind m k).
Proof.
  intros Hm Hk st. unfold bind. specialize (Hm st).
  destruct (m st) as [[a|e] st1]; simpl in *.
  - eapply continues_trans; [exact Hm|apply Hk].
  - exact Hm.
Qed.

Lemma continuing_for_each {A} (l : list A) (body : A -> M (OplModel F E) unit) :
  (forall a, continuing (body a)) -> continuing (for_each l body).
Proof.
  intros Hb. induction l as [|x l IH]; simpl.
  - apply continuing_ret.
  - apply continuing_bind; [apply Hb|intros _; exact IH].
Qed.

Lemma continuing_opl_try (c : opl_call F) (f : E -> result unit * E) :
  continuing (opl_try c f).
Proof.
  intros st. unfold opl_try. destruct (f (_opl st)) as [r e]. apply continues_with_opl.
Qed.

Lemma continues_opl_do {A} (c : opl_call F) (f : E -> A * E) st :
  continues st (snd (opl_do c f st)).
Proof.
  unfold opl_do. destruct (f (_opl st)) as [r e]. apply continues_with_opl.
Qed.

(** What follows the settings call in the [try] block of [__generate]. *)
Lemma continuing_attach_and_generate :
  continuing
    (inputs <- gets (@_inputs F E) ;;
     (if negb (List.length inputs =? 0)%nat then
        let source := MyDataSource inputs in
        opl_try (call_addDataSource source) (addDataSource source)
      else ret tt) ;;
     datfiles <- gets (@_datfiles F E) ;;
     (if negb (List.length datfiles =? 0)%nat then
        for_each datfiles (fun v =>
          let d := DatFile v in
          opl_try (call_addDataSource d) (addDataSource d))
      else ret tt) ;;
     opl_try call_generate generate).
Proof.
  apply continuing_bind; [apply continuing_gets|intros inputs].
  apply continuing_bind.
  { destruct (negb _); [apply continuing_opl_try|apply continuing_ret]. }
  intros _. apply continuing_bind; [apply continuing_gets|intros datfiles].
  apply continuing_bind.
  { destruct (negb _); [|apply continuing_ret].
    apply continuing_for_each. intros v. apply continuing_opl_try. }
  intros _. apply continuing_opl_try.
Qed.

Lemma continuing_generate_try : continuing generate_try.
Proof.
  unfold generate_try.
  apply continuing_bind; [apply continuing_gets|intros g].
  destruct (negb g); [|apply continuing_ret].
  apply continuing_bind; [apply continuing_opl_try|intros _].
  apply continuing_attach_and_generate.
Qed.

Lemma continues_generate st : continues st (snd (__generate st)).
Proof.
  unfold __generate. pose proof (continuing_generate_try st) as H.
  destruct (generate_try st) as [[u|e] st']; simpl in *; exact H.
Qed.

Lemma continues_run_after_generate st : continues (snd (__generate st)) (snd (run st)).
Proof.
  unfold run. destruct (__generate st) as [[] st1]; simpl; [|apply continues_refl].
  assert (Hs : continues st1 (snd (__solve st1))).
  { unfold __solve. destruct (isUsingCP (_opl st1)); apply continues_opl_do. }
  destruct (__solve st1) as [[] st2]; simpl in *; [|exact Hs].
  eapply continues_trans; [exact Hs|].
  eapply continues_trans; [apply continues_with_opl|].
  destruct (hasProfiler _); [apply continues_with_opl|apply continues_refl].
Qed.

Lemma continues_run st : continues st (snd (run st)).
Proof.
  eapply continues_trans; [apply continues_generate|apply continues_run_after_generate].
Qed.

(** On a model the engine reports as not generated, [__generate] starts
    with the settings call, whatever happens next. *)
Lemma generate_starts_over st :
  isGenerated (_opl st) = false ->
  exists l, opl_calls (snd (__generate st))
            = opl_calls st ++ call_setSkipWarnNeverUsedElements true :: l.
Proof.
  intros Hg.
  assert (Htry : exists l, opl_calls (snd (generate_try st))
                           = opl_calls st ++ call_setSkipWarnNeverUsedElements true :: l).
  { unfold generate_try. unfold bind at 1. unfold gets at 1. cbv beta iota.
    rewrite Hg. cbn [negb]. cbv beta iota. unfold bind at 1. unfold opl_try at 1.
    destruct (setSkipWarnNeverUsedElements true (_opl st)) as [[[]|e0] e1].
    - destruct (continuing_attach_and_generate
                  (with_opl st e1 (call_setSkipWarnNeverUsedElements true)))
        as (_ & _ & l & Hl).
      exists l. etransitivity; [exact Hl|].
      simpl. rewrite <- app_assoc. reflexivity.
    - exists []. reflexivity. }
  destruct Htry as [l Hl]. exists l. rewrite <- Hl.
  unfold __generate. destruct (generate_try st) as [[u|e] st']; reflexivity.
Qed.

Lemma run_starts_over st :
  isGenerated (_opl st) = false ->
  exists rest, new_calls st (snd (run st))
               = call_setSkipWarnNeverUsedElements true :: rest.
Proof.
  intros Hg. destruct (generate_starts_over _ Hg) as [l Hl].
  destruct (continues_run_after_generate st) as (_ & _ & l' & Hl').
  exists (l ++ l'). unfold new_calls. rewrite Hl', Hl.
  rewrite <- app_assoc. rewrite skipn_app_length. reflexivity.
Qed.

Lemma attached_sources_continue st st' :
  continues st st' -> attached_sources st' = attached_sources st.
Proof.
  intros (Hi & Hd & _). unfold attached_sources. rewrite Hi, Hd. reflexivity.
Qed.

(** C3, as amended: the second [run] skips generation exactly when the
    engine reports the model as generated after the first [run].  That is
    so when the generation of the first [run] went through, on an engine
    that records it: the second [run] then issues no settings call, attaches
    no data source and does not call [generate] again; on the first [run]
    of a model not yet generated, the aggregate source of the programmatic
    inputs (when there are any) and one source per data file are attached,
    in that order, before [generate].  When the engine still reports the
    model as not generated after the first [run], as after a failed
    generation, the second [run] starts generation over with the settings
    call, and when that generation goes through it has attached the same
    sources and called [generate] again. *)
Theorem second_run_does_not_regenerate :
  forall st : OplModel F E,
    (second_run_generation_free st <-> isGenerated (_opl (snd (run st))) = true)
    /\ (generation_recorded ->
        fst (__generate st) = true ->
        __generate (snd (run st)) = (true, snd (run st))
        /\ second_run_generation_free st
        /\ (isGenerated (_opl st) = false ->
            opl_calls (snd (__generate st))
            = opl_calls st ++ call_setSkipWarnNeverUsedElements true
                :: attached_sources st ++ [call_generate]))
    /\ (isGenerated (_opl (snd (run st))) = false ->
        (exists rest,
            new_calls (snd (run st)) (snd (run (snd (run st))))
            = call_setSkipWarnNeverUsedElements true :: rest)
        /\ (fst (__generate (snd (run st))) = true ->
            opl_calls (snd (__generate (snd (run st))))
            = opl_calls (snd (run st)) ++ call_setSkipWarnNeverUsedElements true
                :: attached_sources st ++ [call_generate])).
Proof.
  intros st. split; [|split].
  - split.
    + intros Hfree. destruct (isGenerated (_opl (snd (run st)))) eqn:Hg; [reflexivity|].
      destruct (run_starts_over _ Hg) as [rest Hrest].
      unfold second_run_generation_free in Hfree. cbv zeta in Hfree.
      specialize (Hfree (call_setSkipWarnNeverUsedElements true)).
      rewrite Hrest in Hfree. specialize (Hfree (or_introl eq_refl)). discriminate.
    + intros Hg. unfold second_run_generation_free. cbv zeta.
      apply run_new_calls_generated. exact Hg.
  - intros Hrec H.
    destruct (generate_outcome st) as [[st1 [H1 H2]]|[e [st1 [H1 H2]]]];
      [|rewrite H2 in H; discriminate].
    assert (Hflag : isGenerated (_opl st1) = true)
      by (eapply generate_try_sets_flag; eassumption).
    assert (Hrun : isGenerated (_opl (snd (run st))) = true)
      by (eapply run_keeps_generated; eassumption).
    split; [|split].
    + unfold __generate. rewrite (generate_try_generated _ Hrun). reflexivity.
    + unfold second_run_generation_free. cbv zeta.
      apply run_new_calls_generated. exact Hrun.
    + intros Hg. rewrite H2. simpl snd. apply (generate_try_fresh _ Hg H1).
  - intros Hg. split.
    + apply run_starts_over. exact Hg.
    + intros Hok.
      destruct (generate_outcome (snd (run st))) as [[st2 [H1 H2]]|[e [st2 [H1 H2]]]];
        [|rewrite H2 in Hok; discriminate].
      rewrite H2. simpl snd.
      rewrite <- (attached_sources_continue (continues_run st)).
      apply (generate_try_fresh _ Hg H1).
Qed.

(** *** Frames *)

Lemma frame_refl st : frame st st.
Proof. unfold frame; auto. Qed.

Lemma frame_trans st1 st2 st3 : frame st1 st2 -> frame st2 st3 -> frame st1 st3.
Proof. unfold frame. intros (a & b & c) (a' & b' & c'). repeat split; congruence. Qed.

Lemma framed_ret {A} (a : A) : framed (ret a : M (OplModel F E) A).
Proof. intros st. apply frame_refl. Qed.

Lemma framed_raise {A} (e : exn) : framed (raise e : M (OplModel F E) A).
Proof. intros st. apply frame_refl. Qed.

Lemma framed_gets {A} (f : OplModel F E -> A) : framed (gets f).
Proof. intros st. apply frame_refl. Qed.

Lemma framed_bind {A B} (m : M (OplModel F E) A) (k : A -> M (OplModel F E) B) :
  framed m -> (forall a, framed (k a)) -> framed (bind m k).
Proof.
  intros Hm Hk st. unfold bind. specialize (Hm st).
  destruct (m st) as [[a|e] st1]; simpl in *.
  - eapply frame_trans; [exact Hm|apply Hk].
  - exact Hm.
Qed.

Lemma framed_for_each {A} (l : list A) (body : A -> M (OplModel F E) unit) :
  (forall a, framed (body a)) -> framed (for_each l body).
Proof.
  intros Hb. induction l as [|x l IH]; simpl.
  - apply framed_ret.
  - apply framed_bind; [apply Hb|intros _; exact IH].
Qed.

Lemma framed_opl_try (c : opl_call F) (f : E -> result unit * E) :
  (forall e, isUsingCP (snd (f e)) = isUsingCP e) -> framed (opl_try c f).
Proof.
  intros Hf st. unfold opl_try. specialize (Hf (_opl st)).
  destruct (f (_opl st)) as [r e]. unfold frame. simpl in *. auto.
Qed.

Lemma frame_opl_do {A} (c : opl_call F) (f : E -> A * E) st :
  (forall e, isUsingCP (snd (f e)) = isUsingCP e) -> frame st (snd (opl_do c f st)).
Proof.
  intros Hf. unfold opl_do. specialize (Hf (_opl st)).
  destruct (f (_opl st)) as [r e]. unfold frame. simpl in *. auto.
Qed.

Section FixedBackend.

Hypothesis Hfixed : backend_fixed.

Lemma framed_generate_try : framed generate_try.
Proof.
  destruct Hfixed as (Hskip & Hadd & Hgen & _).
  unfold generate_try.
  apply framed_bind; [apply framed_gets|intros g].
  destruct (negb g); [|apply framed_ret].
  apply framed_bind; [apply framed_opl_try, Hskip|intros _].
  apply framed_bind; [apply framed_gets|intros inputs].
  apply framed_bind.
  { destruct (negb _); [apply framed_opl_try, Hadd|apply framed_ret]. }
  intros _. apply framed_bind; [apply framed_gets|intros datfiles].
  apply framed_bind.
  { destruct (negb _); [|apply framed_ret].
    apply framed_for_each. intros v. apply framed_opl_try, Hadd. }
  intros _. apply framed_opl_try, Hgen.
Qed.

Lemma frame_generate st : frame st (snd (__generate st)).
Proof.
  unfold __generate. pose proof (framed_generate_try st) as H.
  destruct (generate_try st) as [[u|e] st']; simpl in *; exact H.
Qed.

Lemma frame_solve st : frame st (snd (__solve st)).
Proof.
  destruct Hfixed as (_ & _ & _ & Hcp & Hcplex & _).
  unfold __solve. destruct (isUsingCP (_opl st)); apply frame_opl_do; assumption.
Qed.

Lemma framed_run : framed run.
Proof.
  destruct Hfixed as (_ & _ & _ & _ & _ & Hpost & Hprint & _).
  intros st. unfold run.
  pose proof (frame_generate st) as Hg.
  destruct (__generate st) as [[] st1]; simpl in *; [|exact Hg].
  pose proof (frame_solve st1) as Hs.
  destruct (__solve st1) as [[] st2]; simpl in *.
  - eapply frame_trans; [exact Hg|]. eapply frame_trans; [exact Hs|].
    unfold opl_do. simpl.
    destruct (hasProfiler (postProcess (_opl st2))); unfold frame; simpl;
      rewrite ?Hprint, ?Hpost; auto.
  - eapply frame_trans; eassumption.
Qed.

Lemma framed_get_kpi name : framed (get_kpi name).
Proof.
  intros st. unfold get_kpi.
  destruct (getElement name (_opl st)) as [elt|]; [|apply frame_refl].
  destruct (isDecisionExpression elt); apply frame_refl.
Qed.

Lemma framed_is_tuple_set name : framed (_is_tuple_set name).
Proof.
  intros st. unfold _is_tuple_set.
  destruct (getElement name (_opl st)) as [elt|]; [|apply frame_refl].
  destruct (isDiscreteDataCollection elt); [|apply frame_refl].
  destruct (isTupleSet elt); apply frame_refl.
Qed.

Lemma framed_getTupleSet tset as_pandas : framed (__getTupleSet tset as_pandas).
Proof.
  intros st. unfold __getTupleSet.
  destruct (_getFields (_fieldDict st) (getSchema tset)) as [ff d].
  destruct (negb as_pandas); [unfold frame; simpl; auto|].
  destruct (get_names _ _ _); unfold frame; simpl; auto.
Qed.

Lemma framed_get_table name as_pandas : framed (get_table name as_pandas).
Proof.
  unfold get_table. apply framed_bind; [apply framed_is_tuple_set|intros b].
  destruct b; [|apply framed_raise].
  intros st. destruct (getElement name (_opl st)) as [elt|]; [|apply frame_refl].
  destruct (asTupleSet elt); [apply framed_getTupleSet|apply frame_refl].
Qed.

Lemma framed_export_model name : framed (export_model name).
Proof.
  destruct Hfixed as (_ & _ & _ & _ & _ & _ & _ & Hcp & Hcplex).
  unfold export_model. destruct (negb _); [apply framed_raise|].
  intros st. pose proof (frame_generate st) as Hg.
  destruct (__generate st) as [[] st1]; simpl in *; [|exact Hg].
  eapply frame_trans; [exact Hg|].
  destruct (isUsingCP (_opl st1)); unfold frame, opl_do; simpl; auto.
Qed.

Lemma frame_set_input name value st : frame st (set_input name value st).
Proof. destruct value; unfold frame; simpl; auto. Qed.

(** Every operation but the two statistics readers frames the session. *)
Lemma api_exec_frame st (c : api_call) :
  c <> api_cplex_stats -> c <> api_cplex_quality -> frame st (api_exec st c).
Proof.
  intros H1 H2. destruct c; simpl; try congruence.
  - apply frame_set_input.
  - apply framed_run.
  - apply framed_get_kpi.
  - apply framed_get_table.
  - apply framed_export_model.
Qed.

Lemma api_exec_backend st (c : api_call) :
  isUsingCP (_opl (api_exec st c)) = isUsingCP (_opl st).
Proof.
  destruct c; try (apply api_exec_frame; discriminate); simpl.
  - unfold _get_cplex_stats. destruct (_cplex_stats st); [reflexivity|].
    destruct (isUsingCP (_opl st)) eqn:Hc; simpl; exact Hc.
  - unfold _get_cplex_quality. destruct (_cplex_quality st); [reflexivity|].
    destruct (isUsingCP (_opl st)) eqn:Hc; simpl; exact Hc.
Qed.

Lemma api_exec_cp_inv st (c : api_call) :
  cp_without_statistics st -> cp_without_statistics (api_exec st c).
Proof.
  intros Hinv Hcp. rewrite api_exec_backend in Hcp. destruct (Hinv Hcp) as [Hs Hq].
  pose proof (@api_exec_frame st c) as Hfr.
  destruct c;
    try (specialize (Hfr ltac:(discriminate) ltac:(discriminate));
         destruct Hfr as (-> & -> & _); now auto);
    clear Hfr; simpl.
  - unfold _get_cplex_stats. rewrite Hs, Hcp. simpl. auto.
  - unfold _get_cplex_quality. rewrite Hq, Hcp. simpl. auto.
Qed.

Lemma api_exec_all_cp_inv (calls : list api_call) : forall st,
  cp_without_statistics st -> cp_without_statistics (api_exec_all calls st).
Proof.
  induction calls as [|c calls IH]; intros st H; simpl; [exact H|].
  apply IH, api_exec_cp_inv, H.
Qed.

Lemma api_exec_stats_kept st (c : api_call) s :
  _cplex_stats st = Some s -> _cplex_stats (api_exec st c) = Some s.
Proof.
  intros Hs.
  pose proof (@api_exec_frame st c) as Hfr.
  destruct c;
    try (specialize (Hfr ltac:(discriminate) ltac:(discriminate));
         destruct Hfr as (-> & _ & _); now auto);
    clear Hfr; simpl.
  - unfold _get_cplex_stats. rewrite Hs. exact Hs.
  - unfold _get_cplex_quality. destruct (_cplex_quality st); [exact Hs|].
    destruct (isUsingCP (_opl st)); exact Hs.
Qed.

Lemma api_exec_quality_kept st (c : api_call) q :
  _cplex_quality st = Some q -> _cplex_quality (api_exec st c) = Some q.
Proof.
  intros Hq.
  pose proof (@api_exec_frame st c) as Hfr.
  destruct c;
    try (specialize (Hfr ltac:(discriminate) ltac:(discriminate));
         destruct Hfr as (_ & -> & _); now auto);
    clear Hfr; simpl.
  - unfold _get_cplex_stats. destruct (_cplex_stats st); [exact Hq|].
    destruct (isUsingCP (_opl st)); exact Hq.
  - unfold _get_cplex_quality. rewrite Hq. exact Hq.
Qed.

Lemma api_exec_all_stats_kept (calls : list api_call) : forall st s,
  _cplex_stats st = Some s -> _cplex_stats (api_exec_all calls st) = Some s.
Proof.
  induction calls as [|c calls IH]; intros st s H; simpl; [exact H|].
  apply IH, api_exec_stats_kept, H.
Qed.

Lemma api_exec_all_quality_kept (calls : list api_call) : forall st q,
  _cplex_quality st = Some q -> _cplex_quality (api_exec_all calls st) = Some q.
Proof.
  induction calls as [|c calls IH]; intros st q H; simpl; [exact H|].
  apply IH, api_exec_quality_kept, H.
Qed.

End FixedBackend.

Lemma cached_stats_read st s :
  _cplex_stats st = Some s -> _get_cplex_stats st = (Ok s, st).
Proof. intros H. unfold _get_cplex_stats. rewrite H. reflexivity. Qed.

Lemma cached_quality_read st q :
  _cplex_quality st = Some q -> _get_cplex_quality st = (Ok q, st).
Proof. intros H. unfold _get_cplex_quality. rewrite H. reflexivity. Qed.

Lemma first_stats_read st :
  isUsingCP (_opl st) = false ->
  exists s, fst (_get_cplex_stats st) = Ok s
            /\ _cplex_stats (snd (_get_cplex_stats st)) = Some s
            /\ (_cplex_stats st = None -> s = stats_dict (_opl st)).
Proof.
  intros Hcp. unfold _get_cplex_stats. destruct (_cplex_stats st) as [s|] eqn:Hs.
  - exists s. simpl. repeat split; [exact Hs|discriminate].
  - rewrite Hcp. eexists. simpl. repeat split.
Qed.

Lemma first_quality_read st :
  isUsingCP (_opl st) = false ->
  exists q, fst (_get_cplex_quality st) = Ok q
            /\ _cplex_quality (snd (_get_cplex_quality st)) = Some q
            /\ (_cplex_quality st = None -> q = quality_dict (_opl st)).
Proof.
  intros Hcp. unfold _get_cplex_quality. destruct (_cplex_quality st) as [q|] eqn:Hq.
  - exists q. simpl. repeat split; [exact Hq|discriminate].
  - rewrite Hcp. eexists. simpl. repeat split.
Qed.

(** C8: on a session that uses the CP backend, reading [cplex_stats] or
    [cplex_quality] raises the usage error and leaves the session as it
    was, with nothing cached; on a CPLEX session each of the two readers
    answers a mapping, computed from the engine when nothing was cached,
    and every later read, after any further operations of the session,
    answers that same mapping without touching the session. *)
Theorem cplex_statistics_by_backend :
  backend_fixed ->
  forall (opl : E) (filename : option string) (calls : list api_call),
    let st := api_exec_all calls (new_OplModel opl filename) in
    (isUsingCP (_opl st) = true ->
     (exists msg, _get_cplex_stats st = (Raise (ValueError msg), st))
     /\ (exists msg, _get_cplex_quality st = (Raise (ValueError msg), st)))
    /\ (isUsingCP (_opl st) = false ->
        exists s q,
          fst (_get_cplex_stats st) = Ok s
          /\ fst (_get_cplex_quality st) = Ok q
          /\ (_cplex_stats st = None -> s = stats_dict (_opl st))
          /\ (_cplex_quality st = None -> q = quality_dict (_opl st))
          /\ (forall more,
                 let st' := api_exec_all more (snd (_get_cplex_stats st)) in
                 _get_cplex_stats st' = (Ok s, st'))
          /\ (forall more,
                 let st' := api_exec_all more (snd (_get_cplex_quality st)) in
                 _get_cplex_quality st' = (Ok q, st'))).
Proof.
  intros Hfixed opl filename calls st. split.
  - intros Hcp.
    assert (Hinv : cp_without_statistics st).
    { apply api_exec_all_cp_inv; [exact Hfixed|]. intros _. split; reflexivity. }
    destruct (Hinv Hcp) as [Hs Hq].
    unfold _get_cplex_stats, _get_cplex_quality. rewrite Hs, Hq, Hcp. eauto.
  - intros Hcp.
    destruct (first_stats_read _ Hcp) as (s & Hs1 & Hs2 & Hs3).
    destruct (first_quality_read _ Hcp) as (q & Hq1 & Hq2 & Hq3).
    exists s, q. repeat split; try assumption.
    + intros more st'. apply cached_stats_read.
      apply api_exec_all_stats_kept; assumption.
    + intros more st'. apply cached_quality_read.
      apply api_exec_all_quality_kept; assumption.
Qed.

(** *** Export *)

Lemma extension_allowed_In (extension : string) :
  extension_allowed extension = true <-> In extension ["sav"; ".lp"; "cpo"; "mps"].
Proof.
  unfold extension_allowed. rewrite existsb_exists. split.
  - intros [x [Hin Heq]]. apply String.eqb_eq in Heq. subst x. exact Hin.
  - intros Hin. exists extension. split; [exact Hin|apply String.eqb_refl].
Qed.

(** C6: a name whose last three characters are not one of "sav", ".lp",
    "cpo", "mps" makes [export_model] raise with the session untouched: no
    generation call, no export call.  "result.sav" passes the check and,
    once the model is generated, is handed to the export of the backend. *)
Theorem export_model_checks_extension :
  forall (name : string) (st : OplModel F E),
    ~ In (last3 name) ["sav"; ".lp"; "cpo"; "mps"] ->
    (exists e, export_model name st = (Raise e, st))
    /\ (exists e, export_model "result.txt" st = (Raise e, st))
    /\ In (last3 "result.sav") ["sav"; ".lp"; "cpo"; "mps"]
    /\ (fst (__generate st) = true ->
        fst (export_model "result.sav" st) = Ok tt
        /\ exists c, opl_calls (snd (export_model "result.sav" st))
                     = opl_calls (snd (__generate st)) ++ [c]
                     /\ (c = call_cp_exportModel "result.sav"
                         \/ c = call_cplex_exportModel "result.sav")).
Proof.
  intros name st Hext. split; [|split; [|split]].
  - unfold export_model.
    destruct (extension_allowed (last3 name)) eqn:Ha.
    + apply extension_allowed_In in Ha. contradiction.
    + simpl. eexists. reflexivity.
  - eexists. reflexivity.
  - simpl. auto.
  - intros Hg. unfold export_model.
    change (extension_allowed (last3 "result.sav")) with true. cbn [negb]. cbv beta iota.
    destruct (__generate st) as [g st1]. simpl in Hg. subst g. simpl snd.
    destruct (isUsingCP (_opl st1)); (split; [reflexivity|]);
      eexists; (split; [reflexivity|]); auto.
Qed.

(** *** Lookups by name *)

(** C7: [get_table] on a name that is bound to no element, or to an
    element that is not a tuple set, raises the usage error and returns
    nothing; [get_kpi] does so on a name that is bound to no element or to
    an element that is not a decision expression. *)
Theorem lookups_raise_usage_errors :
  forall (name : string) (st : OplModel F E),
    ((forall elt, getElement name (_opl st) = Some elt ->
                  isDiscreteDataCollection elt && isTupleSet elt = false) ->
     forall as_pandas,
       exists msg, get_table name as_pandas st = (Raise (ValueError msg), st))
    /\ ((forall elt, getElement name (_opl st) = Some elt ->
                     isDecisionExpression elt = false) ->
        exists msg, get_kpi name st = (Raise (ValueError msg), st)).
Proof.
  intros name st. split.
  - intros H as_pandas. unfold get_table, bind, _is_tuple_set.
    destruct (getElement name (_opl st)) as [elt|] eqn:He; [|eauto].
    specialize (H elt eq_refl).
    destruct (isDiscreteDataCollection elt); simpl in H.
    + rewrite H. unfold raise. eauto.
    + unfold raise. eauto.
  - intros H. unfold get_kpi.
    destruct (getElement name (_opl st)) as [elt|] eqn:He; [|eauto].
    rewrite (H elt eq_refl). eauto.
Qed.

(** *** The quality mapping *)

Lemma odict_get_set {V} (d : odict V) (k k' : string) (v : V) :
  odict_get (odict_set d k v) k' = if String.eqb k' k then Some v else odict_get d k'.
Proof.
  induction d as [|[k0 v0] d IH]; simpl.
  - reflexivity.
  - destruct (String.eqb k k0) eqn:Hk; simpl.
    + apply String.eqb_eq in Hk. subst k0.
      destruct (String.eqb k' k); reflexivity.
    + destruct (String.eqb k' k0) eqn:Hk0.
      * apply String.eqb_eq in Hk0. subst k0.
        rewrite String.eqb_sym, Hk. reflexivity.
      * exact IH.
Qed.

Lemma fold_left_snoc {A B} (f : A -> B -> A) (l : list B) (x : B) (a : A) :
  fold_left f (l ++ [x]) a = f (fold_left f l a) x.
Proof. rewrite fold_left_app. reflexivity. Qed.

Lemma quality_prefix (cplex : E) :
  (forall i j, (i < _getQualityEnumSize cplex)%nat -> (j < _getQualityEnumSize cplex)%nat ->
               _getQualityEnumName cplex i = _getQualityEnumName cplex j -> i = j) ->
  forall k, (k <= _getQualityEnumSize cplex)%nat ->
  forall i, (i < _getQualityEnumSize cplex)%nat ->
    odict_get (fold_left (quality_step cplex) (seq 0 k) []) (_getQualityEnumName cplex i)
    = if (i <? k)%nat && quality_kept cplex i then Some (_getQuality cplex i) else None.
Proof.
  intros Hinj. induction k as [|k IH]; intros Hk i Hi.
  - reflexivity.
  - rewrite seq_S, fold_left_snoc. simpl plus.
    specialize (IH ltac:(lia) i Hi).
    unfold quality_step at 1. fold (quality_kept cplex k).
    assert (Hstep : (if negb (k =? 10)%nat && negb (k =? 11)%nat
                     then if negb (float_eqb (_getQuality cplex k) p_inf)
                          then odict_set (fold_left (quality_step cplex) (seq 0 k) [])
                                 (_getQualityEnumName cplex k) (_getQuality cplex k)
                          else fold_left (quality_step cplex) (seq 0 k) []
                     else fold_left (quality_step cplex) (seq 0 k) [])
                    = if quality_kept cplex k
                      then odict_set (fold_left (quality_step cplex) (seq 0 k) [])
                             (_getQualityEnumName cplex k) (_getQuality cplex k)
                      else fold_left (quality_step cplex) (seq 0 k) []).
    { unfold quality_kept.
      destruct (negb (k =? 10)%nat && negb (k =? 11)%nat); simpl; [|reflexivity].
      destruct (negb (float_eqb (_getQuality cplex k) p_inf)); reflexivity. }
    rewrite Hstep. clear Hstep.
    destruct (Nat.eq_dec i k) as [->|Hne].
    + assert (Hlt : (k <? S k)%nat = true) by (apply Nat.ltb_lt; lia).
      assert (Hlt' : (k <? k)%nat = false) by (apply Nat.ltb_ge; lia).
      rewrite Hlt. rewrite Hlt' in IH. simpl in IH. simpl andb.
      destruct (quality_kept cplex k).
      * rewrite odict_get_set, String.eqb_refl. reflexivity.
      * exact IH.
    + assert (Hlt : (i <? S k)%nat = (i <? k)%nat).
      { destruct (Nat.ltb_spec i k), (Nat.ltb_spec i (S k)); auto; lia. }
      rewrite Hlt.
      destruct (quality_kept cplex k); [|exact IH].
      rewrite odict_get_set.
      destruct (String.eqb (_getQualityEnumName cplex i) (_getQualityEnumName cplex k)) eqn:Hn;
        [|exact IH].
      apply String.eqb_eq in Hn. apply Hinj in Hn; [contradiction|exact Hi|lia].
Qed.

(** C10: with the names of the quality enumeration pairwise distinct, the
    mapping computed by [cplex_quality] holds an entry for the index [i]
    exactly when [i] is neither 10 nor 11 and the value of the metric is
    not positive infinity; the entry then holds that value. *)
Theorem cplex_quality_entries :
  forall st : OplModel F E,
    _cplex_quality st = None ->
    isUsingCP (_opl st) = false ->
    (forall i j, (i < _getQualityEnumSize (_opl st))%nat ->
                 (j < _getQualityEnumSize (_opl st))%nat ->
                 _getQualityEnumName (_opl st) i = _getQualityEnumName (_opl st) j ->
                 i = j) ->
    exists q,
      fst (_get_cplex_quality st) = Ok q
      /\ forall i, (i < _getQualityEnumSize (_opl st))%nat ->
           ((exists v, odict_get q (_getQualityEnumName (_opl st) i) = Some v)
            <-> (i <> 10%nat /\ i <> 11%nat
                 /\ float_eqb (_getQuality (_opl st) i) p_inf = false))
           /\ (forall v, odict_get q (_getQualityEnumName (_opl st) i) = Some v ->
                         v = _getQuality (_opl st) i).
Proof.
  intros st Hnone Hcp Hinj.
  exists (quality_dict (_opl st)). split.
  - unfold _get_cplex_quality. rewrite Hnone, Hcp. reflexivity.
  - intros i Hi. unfold quality_dict.
    rewrite (quality_prefix (_opl st) Hinj (le_n _) Hi).
    assert (Hlt : (i <? _getQualityEnumSize (_opl st))%nat = true)
      by (apply Nat.ltb_lt; exact Hi).
    rewrite Hlt. simpl andb.
    assert (Hkept : quality_kept (_opl st) i = true
                    <-> (i <> 10%nat /\ i <> 11%nat
                         /\ float_eqb (_getQuality (_opl st) i) p_inf = false)).
    { unfold quality_kept. rewrite !andb_true_iff, !negb_true_iff, !Nat.eqb_neq. tauto. }
    destruct (quality_kept (_opl st) i); split.
    + split; [intros _; apply Hkept; reflexivity|eauto].
    + intros v [= <-]. reflexivity.
    + split; [intros [v Hv]; discriminate|].
      intros H. apply Hkept in H. discriminate.
    + intros v Hv. discriminate.
Qed.

End SessionProperties.

(** ** Column labels *)

(** C9, at the schema [S = <A a, T t>] with [T = <U u, int x>]: the labels
    of the columns of [T] nested in [S] should be "T.U.q" and "T.x"; the
    code answers "T.A.p" for the first, because [get_names] fetches the
    sub-tuple of column [i] from the schema of the table instead of the
    schema at hand.  At [R = <int k, V v>] with [V = <int y, W w>] the same
    lookup returns [V] itself and the recursion does not end.  One level of
    nesting is labelled as described. *)
Theorem get_names_nested_labels :
  get_names recursion_limit Sample.schema_S Sample.schema_S
  = Ok ["A.p"; "T.A.p"; "T.x"]
  /\ flatten_names Sample.schema_S = ["A.p"; "T.U.q"; "T.x"]
  /\ get_names recursion_limit Sample.schema_R Sample.schema_R = Raise RecursionError
  /\ flatten_names Sample.schema_R = ["k"; "V.y"; "V.W.z"]
  /\ get_names recursion_limit Sample.schema_T Sample.schema_T
     = Ok (flatten_names Sample.schema_T).
Proof.
  repeat split; vm_compute; reflexivity.
Qed.

(** ** Concrete runs *)

Lemma sample_generation_recorded : generation_recorded (EN := Sample.opl).
Proof.
  unfold generation_recorded. simpl. repeat split; auto.
  intros e e'. unfold Sample.engine_generate.
  destruct (Sample.generate_ok e); [|discriminate].
  intros [= <-]. reflexivity.
Qed.

Lemma sample_backend_fixed : backend_fixed (EN := Sample.opl).
Proof.
  unfold backend_fixed. simpl. repeat split; auto.
  intros e. unfold Sample.engine_generate. destruct (Sample.generate_ok e); reflexivity.
Qed.

(** A keyless schema filled from a list of rows: the hash is rebuilt all
    the same. *)
Lemma keyless_bulk_fill_rebuilds_hash :
  exists st',
    read_input (fun _ => Ok Sample.items_schema) "Items" (VList Sample.items_rows)
               Sample.empty_handler = (Ok tt, st')
    /\ ~ hash_rebuilt_iff_key "Items" Sample.items_schema (dh_calls st').
Proof.
  eexists. split; [vm_compute; reflexivity|].
  intros [H _]. simpl in H.
  assert (Hkey : false = true) by (apply H; do 4 right; left; reflexivity).
  discriminate.
Qed.

(** A session whose generation fails: the second [run] attaches the
    sources and calls [generate] again. *)
Lemma failed_generation_is_retried :
  ~ second_run_generation_free (Sample.session Sample.failing_engine).
Proof.
  intros H.
  assert (Hin : In call_generate
                   (new_calls (snd (run (Sample.session Sample.failing_engine)))
                      (snd (run (snd (run (Sample.session Sample.failing_engine)))))))
    by (vm_compute; do 3 right; left; reflexivity).
  apply H in Hin. discriminate.
Qed.

Lemma bulk_fill_rebuilds_hash_keyed :
  exists st',
    read_input (fun _ => Ok Sample.keyed_schema) "Items" (VDataFrame Sample.items_frame)
               Sample.empty_handler = (Ok tt, st')
    /\ dh_calls st'
       = [dh_prepareSet "Items";
          dh_setIntColumnValues "Items" 0 [PInt 1; PInt 2] 2;
          dh_setStringColumnValues "Items" 1 ["a"; "b"] 2;
          dh_setNumColumnValues "Items" 2
            [PFloat (Sample.Tenths 105); PFloat (Sample.Tenths 200)] 2;
          dh_fillTupleHash "Items"]
    /\ In (dh_fillTupleHash "Items") (dh_calls st').
Proof.
  apply (@bulk_fill_rebuilds_hash _ _ (fun _ => Ok Sample.keyed_schema) "Items"
           Sample.keyed_schema (VDataFrame Sample.items_frame)
           (map snd Sample.items_frame) Sample.empty_handler).
  - reflexivity.
  - reflexivity.
  - vm_compute. discriminate.
  - vm_compute. reflexivity.
Defined.

Lemma row_path_commits_items :
  exists st',
    read_input (fun _ => Ok Sample.keyed_schema) "Items" (VIterable Sample.items_rows)
               Sample.empty_handler = (Ok tt, st')
    /\ dh_calls st'
       = [dh_prepareSet "Items"; dh_IloTupleCellArray 3;
          dh_setNumValue 0 (Sample.Tenths 10); dh_setStringValue 1 "a";
          dh_setNumValue 2 (Sample.Tenths 105); dh_commit "Items" false;
          dh_setNumValue 0 (Sample.Tenths 20); dh_setStringValue 1 "b";
          dh_setNumValue 2 (Sample.Tenths 200); dh_commit "Items" false;
          dh_cells_end].
Proof.
  apply (@row_path_commits_by_key _ _ (fun _ => Ok Sample.keyed_schema) "Items"
           Sample.keyed_schema Sample.items_rows
           ([[dh_setNumValue 0 (Sample.Tenths 10); dh_setStringValue 1 "a";
                        dh_setNumValue 2 (Sample.Tenths 105)];
                       [dh_setNumValue 0 (Sample.Tenths 20); dh_setStringValue 1 "b";
                        dh_setNumValue 2 (Sample.Tenths 200)]])
           Sample.empty_handler).
  - reflexivity.
  - repeat constructor.
Defined.


Lemma second_run_of_sample_session :
  (__generate (snd (run (Sample.session Sample.cplex_engine)))
   = (true, snd (run (Sample.session Sample.cplex_engine)))
   /\ second_run_generation_free (Sample.session Sample.cplex_engine)
   /\ (isGenerated (_opl (Sample.session Sample.cplex_engine)) = false ->
       opl_calls (snd (__generate (Sample.session Sample.cplex_engine)))
       = opl_calls (Sample.session Sample.cplex_engine)
           ++ call_setSkipWarnNeverUsedElements true
           :: attached_sources (Sample.session Sample.cplex_engine) ++ [call_generate]))
  /\ (exists rest,
         new_calls (snd (run (Sample.session Sample.failing_engine)))
                   (snd (run (snd (run (Sample.session Sample.failing_engine)))))
         = call_setSkipWarnNeverUsedElements true :: rest).
Proof.
  split.
  - apply (second_run_does_not_regenerate (Sample.session Sample.cplex_engine)).
    + exact sample_generation_recorded.
    + reflexivity.
  - apply (second_run_does_not_regenerate (Sample.session Sample.failing_engine)).
    reflexivity.
Defined.

Lemma cp_session_has_no_statistics :
  (exists msg, _get_cplex_stats (Sample.session Sample.cp_engine)
               = (Raise (ValueError msg), Sample.session Sample.cp_engine))
  /\ (exists msg, _get_cplex_quality (Sample.session Sample.cp_engine)
                  = (Raise (ValueError msg), Sample.session Sample.cp_engine)).
Proof.
  apply (cplex_statistics_by_backend sample_backend_fixed Sample.cp_engine
           (Some "model.mod")
           [api_set_input "Items" (Some (VList Sample.items_rows));
            api_set_input "data.dat" None]).
  reflexivity.
Defined.

Lemma export_of_result_txt :
  (exists e, export_model "result.txt" (Sample.session Sample.cplex_engine)
             = (Raise e, Sample.session Sample.cplex_engine))
  /\ (exists e, export_model "result.txt" (Sample.session Sample.cplex_engine)
                = (Raise e, Sample.session Sample.cplex_engine))
  /\ In (last3 "result.sav") ["sav"; ".lp"; "cpo"; "mps"]
  /\ (fst (__generate (Sample.session Sample.cplex_engine)) = true ->
      fst (export_model "result.sav" (Sample.session Sample.cplex_engine)) = Ok tt
      /\ exists c,
           opl_calls (snd (export_model "result.sav" (Sample.session Sample.cplex_engine)))
           = opl_calls (snd (__generate (Sample.session Sample.cplex_engine))) ++ [c]
           /\ (c = call_cp_exportModel "result.sav"
               \/ c = call_cplex_exportModel "result.sav")).
Proof.
  apply (export_model_checks_extension "result.txt" (Sample.session Sample.cplex_engine)).
  simpl. intros [H|[H|[H|[H|[]]]]]; discriminate.
Defined.

Lemma lookups_of_sample_session :
  (exists msg, get_table "x" true (Sample.session Sample.cplex_engine)
               = (Raise (ValueError msg), Sample.session Sample.cplex_engine))
  /\ (exists msg, get_kpi "x" (Sample.session Sample.cplex_engine)
                  = (Raise (ValueError msg), Sample.session Sample.cplex_engine))
  /\ (exists msg, get_kpi "nothing" (Sample.session Sample.cplex_engine)
                  = (Raise (ValueError msg), Sample.session Sample.cplex_engine)).
Proof.
  split; [|split].
  - apply (lookups_raise_usage_errors "x" (Sample.session Sample.cplex_engine)).
    intros elt [= <-]. reflexivity.
  - apply (lookups_raise_usage_errors "x" (Sample.session Sample.cplex_engine)).
    intros elt [= <-]. reflexivity.
  - apply (lookups_raise_usage_errors "nothing" (Sample.session Sample.cplex_engine)).
    intros elt H. discriminate.
Defined.

Lemma quality_of_sample_session :
  exists q,
    fst (_get_cplex_quality (Sample.session Sample.cplex_engine)) = Ok q
    /\ forall i,
         (i < _getQualityEnumSize (_opl (Sample.session Sample.cplex_engine)))%nat ->
         ((exists v,
              odict_get q (_getQualityEnumName (_opl (Sample.session Sample.cplex_engine)) i)
              = Some v)
          <-> (i <> 10%nat /\ i <> 11%nat
               /\ float_eqb (_getQuality (_opl (Sample.session Sample.cplex_engine)) i) p_inf
                  = false))
         /\ (forall v,
                odict_get q (_getQualityEnumName (_opl (Sample.session Sample.cplex_engine)) i)
                = Some v ->
                v = _getQuality (_opl (Sample.session Sample.cplex_engine)) i).
Proof.
  apply (cplex_quality_entries (Sample.session Sample.cplex_engine)).
  - reflexivity.
  - reflexivity.
  - intros i j Hi Hj.
    destruct i as [|[|[|i]]]; destruct j as [|[|[|j]]];
      simpl in *; try reflexivity; try discriminate; lia.
Defined.

(** * Further properties *)

(** ** Transposition *)

Section Transposition.

Context {A : Type}.

Implicit Types (rows cols : list (list A)) (r : list A).

Lemma all_heads_rect (n : nat) : forall rows,
  Forall (fun r => List.length r = S n) rows ->
  exists hs ts, all_heads rows = Some (hs, ts)
                /\ List.length hs = List.length rows
                /\ Forall (fun r => List.length r = n) ts.
Proof.
  induction rows as [|r rows IH]; intros H.
  - exists [], []. simpl. auto.
  - inversion H as [|? ? Hr Hrows]; subst.
    destruct r as [|x r']; [discriminate|].
    destruct (IH Hrows) as (hs & ts & Hh & Hl & Ht).
    exists (x :: hs), (r' :: ts). simpl. rewrite Hh. repeat split.
    + simpl. congruence.
    + constructor; [simpl in Hr; congruence|exact Ht].
Qed.

Lemma zip_upto_cons (n : nat) : forall r rows,
  List.length r = n -> Forall (fun r' => List.length r' = n) rows ->
  zip_upto n (r :: rows) = cons_each r (zip_upto n rows).
Proof.
  induction n as [|n IH]; intros r rows Hr Hrows.
  - destruct r; [reflexivity|discriminate].
  - destruct r as [|x r']; [discriminate|].
    destruct (all_heads_rect Hrows) as (hs & ts & Hh & _ & Ht).
    simpl. rewrite Hh. simpl. f_equal.
    apply IH; [simpl in Hr; congruence|exact Ht].
Qed.

Lemma zip_upto_length (n : nat) : forall rows,
  Forall (fun r => List.length r = n) rows ->
  List.length (zip_upto n rows) = n
  /\ Forall (fun c => List.length c = List.length rows) (zip_upto n rows).
Proof.
  induction n as [|n IH]; intros rows H.
  - simpl. auto.
  - destruct (all_heads_rect H) as (hs & ts & Hh & Hl & Ht).
    simpl. rewrite Hh. destruct (IH ts Ht) as [IH1 IH2]. split.
    + simpl. congruence.
    + constructor; [exact Hl|].
      assert (Hlen : List.length ts = List.length rows).
      { clear - Hh. revert hs ts Hh.
        induction rows as [|r rows IHr]; intros hs ts Hh; simpl in Hh.
        - injection Hh as <- <-. reflexivity.
        - destruct r as [|x r']; [discriminate|].
          destruct (all_heads rows) as [[hs' ts']|] eqn:Hr; [|discriminate].
          injection Hh as <- <-. simpl. f_equal. eapply IHr. reflexivity. }
      rewrite <- Hlen. exact IH2.
Qed.

Lemma all_heads_cons_each : forall r cols,
  List.length r = List.length cols ->
  all_heads (cons_each r cols) = Some (r, cols).
Proof.
  induction r as [|x r IH]; intros cols H.
  - destruct cols; [reflexivity|discriminate].
  - destruct cols as [|c cols]; [discriminate|].
    simpl. rewrite IH by (simpl in H; congruence). reflexivity.
Qed.

Lemma zip_upto_involutive (n : nat) : forall rows,
  Forall (fun r => List.length r = n) rows ->
  zip_upto (List.length rows) (zip_upto n rows) = rows.
Proof.
  induction rows as [|r rows IH]; intros H.
  - reflexivity.
  - inversion H as [|? ? Hr Hrows]; subst.
    rewrite zip_upto_cons by (auto; exact Hrows).
    simpl List.length. simpl zip_upto.
    rewrite all_heads_cons_each.
    + f_equal. apply IH. exact Hrows.
    + symmetry. apply (zip_upto_length Hrows).
Qed.

Lemma zip_star_involutive (n : nat) (rows : list (list A)) :
  (0 < n)%nat ->
  Forall (fun r => List.length r = n) rows ->
  zip_star (zip_star rows) = rows.
Proof.
  intros Hn H. destruct rows as [|r rows]; [reflexivity|].
  assert (Hr : List.length r = n) by (inversion H; assumption).
  unfold zip_star at 2. rewrite Hr.
  destruct (zip_upto_length H) as [Hlen Hcols].
  destruct (zip_upto n (r :: rows)) as [|c cols] eqn:Hz; [simpl in Hlen; lia|].
  unfold zip_star. inversion Hcols as [|? ? Hc _]; subst.
  rewrite Hc, <- Hz. apply zip_upto_involutive. exact H.
Qed.

(** X1: rows of one common, positive width survive the two transpositions
    of the adapter: [zip] of the unpacked rows gives the columns that
    [read] hands to the engine, one per cell of a row and each as long as
    the list of rows, and [zip] of those columns, as done by
    [__getTupleSet], gives the rows back. *)
Theorem zip_star_round_trip :
  forall (n : nat) (rows : list (list A)),
    (0 < n)%nat ->
    Forall (fun r => List.length r = n) rows ->
    zip_star (zip_star rows) = rows
    /\ (rows <> [] -> List.length (zip_star rows) = n)
    /\ Forall (fun c => List.length c = List.length rows) (zip_star rows).
Proof.
  intros n rows Hn H. split; [|split].
  - apply (zip_star_involutive Hn H).
  - intros Hne. destruct rows as [|r rows]; [congruence|].
    assert (Hr : List.length r = n) by (inversion H; assumption).
    unfold zip_star. rewrite Hr. apply (zip_upto_length H).
  - destruct rows as [|r rows]; [constructor|].
    assert (Hr : List.length r = n) by (inversion H; assumption).
    unfold zip_star. rewrite Hr. apply (zip_upto_length H).
Qed.

Lemma all_heads_none : forall rows,
  all_heads rows = None <-> In [] rows.
Proof.
  induction rows as [|r rows IH]; simpl.
  - split; [discriminate|tauto].
  - destruct r as [|x r'].
    + split; auto.
    + destruct (all_heads rows) as [[hs ts]|].
      * split; [discriminate|]. intros [H|H]; [discriminate|].
        apply IH in H. discriminate.
      * split; [intros _; right; apply IH; reflexivity|reflexivity].
Qed.

Lemma min_width_cons r rows :
  rows <> [] -> min_width (r :: rows) = Nat.min (List.length r) (min_width rows).
Proof. destruct rows; [congruence|reflexivity]. Qed.

Lemma min_width_zero : forall rows,
  rows <> [] -> (min_width rows = 0%nat <-> In [] rows).
Proof.
  induction rows as [|r rows IH]; intros Hne; [congruence|].
  destruct rows as [|r' rows'].
  - simpl. split.
    + intros H. left. destruct r; [reflexivity|discriminate].
    + intros [->|[]]. reflexivity.
  - rewrite min_width_cons by discriminate.
    specialize (IH ltac:(discriminate)). split.
    + intros H. destruct r as [|x r0]; [left; reflexivity|].
      right. apply IH. simpl List.length in H. lia.
    + intros [->|H]; [reflexivity|]. apply IH in H. rewrite H. lia.
Qed.

Lemma all_heads_tails : forall rows hs ts,
  rows <> [] -> all_heads rows = Some (hs, ts) ->
  ts <> [] /\ min_width rows = S (min_width ts).
Proof.
  induction rows as [|r rows IH]; intros hs ts Hne H; [congruence|].
  simpl in H. destruct r as [|x r']; [discriminate|].
  destruct (all_heads rows) as [[hs' ts']|] eqn:Hr; [|discriminate].
  injection H as <- <-. split; [discriminate|].
  destruct rows as [|r2 rows2].
  - simpl in Hr. injection Hr as <- <-. reflexivity.
  - destruct (IH hs' ts' ltac:(discriminate) eq_refl) as [Hts Hmin].
    rewrite min_width_cons by discriminate.
    rewrite (min_width_cons r' Hts). rewrite Hmin. simpl List.length. lia.
Qed.

Lemma zip_upto_width (n : nat) : forall rows,
  rows <> [] -> List.length (zip_upto n rows) = Nat.min n (min_width rows).
Proof.
  induction n as [|n IH]; intros rows Hne; [reflexivity|].
  simpl. destruct (all_heads rows) as [[hs ts]|] eqn:Hh.
  - destruct (all_heads_tails Hne Hh) as [Hts Hmin].
    simpl. rewrite (IH ts Hts), Hmin. lia.
  - apply all_heads_none in Hh. apply (min_width_zero Hne) in Hh.
    rewrite Hh. simpl. lia.
Qed.

Lemma zip_star_length (rows : list (list A)) :
  List.length (zip_star rows) = min_width rows.
Proof.
  destruct rows as [|r rows]; [reflexivity|].
  unfold zip_star. rewrite zip_upto_width by discriminate.
  destruct rows as [|r' rows'].
  - simpl. lia.
  - rewrite min_width_cons by discriminate. lia.
Qed.

Lemma zip_star_nil_iff (rows : list (list A)) :
  zip_star rows = [] <-> rows = [] \/ In [] rows.
Proof.
  rewrite <- length_zero_iff_nil, zip_star_length.
  destruct rows as [|r rows].
  - simpl. tauto.
  - rewrite (@min_width_zero (r :: rows)) by discriminate.
    split; [auto|]. intros [H|H]; [discriminate|exact H].
Qed.

(** X2: the transposition of the rows has as many columns as the
    narrowest row has cells: rows of unequal width are cut to the shortest
    one, without an error; there are no columns at all exactly when there
    are no rows or one of the rows is empty. *)
Theorem zip_star_width :
  forall rows : list (list A),
    List.length (zip_star rows) = min_width rows
    /\ (zip_star rows = [] <-> rows = [] \/ In [] rows).
Proof.
  intros rows. split.
  - apply zip_star_length.
  - apply zip_star_nil_iff.
Qed.

End Transposition.

(** ** Edges of the data source adapter *)

Section AdapterEdges.

Context {F : Type} {PF : PyFloat F}.

Implicit Types (st : dh_state F).

Lemma read_input_prefix (prepare : string -> result IloTupleSchema) (name : string)
      (schema : IloTupleSchema) (value : input_value F) st :
  prepare name = Ok schema ->
  read_input prepare name value st
  = (let (fields, fieldsSize) := fst (_getFields (dh_fields st) schema) in
     match value with
     | VList rows => fillTupleSet name fields (zip_star rows)
     | VDataFrame columns =>
         bycolumn <- lift (frame_bycolumn columns) ;;
         fillTupleSet name fields bycolumn
     | VIterable rows =>
         call (dh_IloTupleCellArray fieldsSize) ;;
         commit_rows name (hasKey schema) fields rows ;;
         (if negb (hasKey schema) then call (dh_fillColumns name) else ret tt) ;;
         call dh_cells_end
     end)
      {| dh_calls := dh_calls st ++ [dh_prepareSet name];
         dh_fields := snd (_getFields (dh_fields st) schema) |}.
Proof.
  intros Hp. unfold read_input.
  rewrite (bind_ok _ _ _ (call_issued _ _)).
  assert (Hl : lift (prepare name) (issued st [dh_prepareSet name])
               = (Ok schema, issued st [dh_prepareSet name])).
  { unfold lift. rewrite Hp. reflexivity. }
  rewrite (bind_ok _ _ _ Hl).
  rewrite (bind_ok _ _ _ (getFields_run _ _)).
  reflexivity.
Qed.





Lemma fill_columns_ext set b1 b2 size : forall (fields : list Z) k st,
  (forall i, (i < k + List.length fields)%nat -> nth_error b1 i = nth_error b2 i) ->
  for_enumerate_from k fields (fill_column set b1 size) st
  = for_enumerate_from k fields (fill_column (F:=F) set b2 size) st.
Proof.
  induction fields as [|type fields IH]; intros k st H; [reflexivity|].
  simpl. unfold bind.
  assert (Hk : fill_column set b1 size k type st = fill_column set b2 size k type st).
  { unfold fill_column, index. rewrite (H k) by (simpl; lia). reflexivity. }
  rewrite Hk. destruct (fill_column set b2 size k type st) as [[[]|e] st1]; [|reflexivity].
  apply IH. intros i Hi. apply H. simpl. lia.
Qed.

(** X5: columns beyond the fields of the schema are ignored by the column
    path: the fill behaves, in what it writes and in what it raises, as if
    they had not been given. *)
Theorem bulk_fill_ignores_surplus_columns :
  forall (set : string) (fields : list Z) (cols extra : list (list (pyval F)))
         (st : dh_state F),
    cols <> [] ->
    (List.length fields <= List.length cols)%nat ->
    fillTupleSet set fields (cols ++ extra) st = fillTupleSet set fields cols st.
Proof.
  intros set fields cols extra st Hne Hlen.
  destruct cols as [|col0 cols]; [congruence|].
  unfold fillTupleSet, index, for_enumerate. simpl nth_error. cbv beta iota.
  unfold bind at 1 3. unfold ret at 1 2.
  unfold bind at 1 2.
  rewrite (@fill_columns_ext set ((col0 :: cols) ++ extra) (col0 :: cols)
             (List.length col0) fields 0 st).
  - reflexivity.
  - intros i Hi. apply nth_error_app1. simpl in *. lia.
Qed.

Lemma row_cells_long (fields : list Z) : forall (row : list (pyval F)) (i : nat) ws st,
  (List.length (skipn i fields) < List.length row)%nat ->
  row_writes i (skipn i fields) (firstn (List.length (skipn i fields)) row) = Ok ws ->
  for_enumerate_from i row (fun i t => f <- index fields i ;; addCell i f t) st
  = (Raise (IndexError "list index out of range"), issued st ws).
Proof.
  induction row as [|t row IH]; intros i ws st Hlen H.
  - simpl in Hlen. lia.
  - destruct (skipn i fields) as [|f fs] eqn:Hs.
    + simpl in H. injection H as <-.
      simpl. unfold bind, index. rewrite (skipn_nil_nth _ _ Hs). simpl.
      rewrite issued_nil. reflexivity.
    + destruct (skipn_cons_nth _ _ Hs) as [Hn Hs'].
      simpl in H.
      destruct (cell_write i f t) as [c|e] eqn:Hc; simpl in H; [|discriminate].
      destruct (row_writes (S i) fs (firstn (List.length fs) row)) as [cs|e] eqn:Hr;
        simpl in H; [|discriminate].
      injection H as <-.
      simpl. erewrite bind_ok.
      2:{ unfold index. rewrite Hn. unfold bind, ret.
          apply addCell_cell_write. exact Hc. }
      rewrite <- Hs' in Hr. rewrite (IH (S i) cs).
      * rewrite issued_app. reflexivity.
      * rewrite Hs'. cbn [List.length] in Hlen. lia.
      * rewrite Hs' in *. exact Hr.
Qed.

(** X6: in the row path a row with more cells than the schema has fields
    raises [IndexError] once the cells that fit have been written: the rows
    before it are committed already, the row itself is not, the rows after
    it are not looked at, and neither [fillColumns] nor the [end] of the
    cell array is called. *)
Theorem row_longer_than_schema :
  forall (prepare : string -> result IloTupleSchema) (name : string)
         (schema : IloTupleSchema) (good : list (list (pyval F)))
         (writes : list (list (dh_call F))) (row : list (pyval F))
         (ws : list (dh_call F)) (rest : list (list (pyval F))) (st : dh_state F),
    prepare name = Ok schema ->
    Forall2 (fun r cs =>
               row_writes 0 (fst (fst (_getFields (dh_fields st) schema))) r = Ok cs)
            good writes ->
    (List.length (fst (fst (_getFields (dh_fields st) schema))) < List.length row)%nat ->
    row_writes 0 (fst (fst (_getFields (dh_fields st) schema)))
               (firstn (List.length (fst (fst (_getFields (dh_fields st) schema)))) row)
    = Ok ws ->
    exists st',
      read_input prepare name (VIterable (good ++ row :: rest)) st
      = (Raise (IndexError "list index out of range"), st')
      /\ dh_calls st'
         = dh_calls st
             ++ [dh_prepareSet name;
                 dh_IloTupleCellArray
                   (List.length (fst (fst (_getFields (dh_fields st) schema))))]
             ++ List.concat (map (fun cs =>
                                    cs ++ [if hasKey schema
                                           then dh_commit name false
                                           else dh_commit2HashTable name false])
                                 writes)
             ++ ws.
Proof.
  intros prepare name schema good writes row ws rest st Hp Hgood Hlen Hrow.
  rewrite (read_input_prefix _ _ _ _ Hp).
  pose proof (getFields_size (dh_fields st) schema) as Hsz.
  destruct (_getFields (dh_fields st) schema) as [[fields fieldsSize] d].
  simpl in Hsz, Hgood, Hlen, Hrow. subst fieldsSize. cbn [fst snd].
  rewrite (bind_ok _ _ _ (call_issued _ _)).
  set (st1 := issued _ [dh_IloTupleCellArray (List.length fields)]).
  assert (Hrows : commit_rows name (hasKey schema) fields (good ++ row :: rest) st1
                  = (Raise (IndexError "list index out of range"),
                     issued st1 (List.concat
                                   (map (fun cs => cs ++ [commit_call name (hasKey schema)])
                                        writes) ++ ws))).
  { clearbody st1. revert st1.
    induction Hgood as [|r cs good writes Hr _ IH]; intros st1.
    - unfold commit_rows. simpl.
      erewrite bind_raise; [reflexivity|].
      unfold commit_row, for_enumerate.
      erewrite bind_raise; [reflexivity|].
      apply (row_cells_long fields row 0); assumption.
    - unfold commit_rows in *. simpl.
      erewrite bind_ok by (apply commit_row_ok; exact Hr).
      rewrite IH, issued_app. rewrite <- !app_assoc. reflexivity. }
  erewrite bind_raise by exact Hrows.
  eexists. split; [reflexivity|].
  unfold st1, commit_call. simpl. rewrite <- !app_assoc. reflexivity.
Qed.

End AdapterEdges.

(** ** Dictionaries and caches of the session *)

Lemma odict_set_keys {V} (d : odict V) (k : string) (v : V) :
  map fst (odict_set d k v)
  = match odict_get d k with
    | Some _ => map fst d
    | None => map fst d ++ [k]
    end.
Proof.
  induction d as [|[k0 v0] d IH]; simpl; [reflexivity|].
  destruct (String.eqb k k0) eqn:Hk; simpl.
  - apply String.eqb_eq in Hk. subst k0. reflexivity.
  - rewrite IH. destruct (odict_get d k); reflexivity.
Qed.

Lemma odict_get_none {V} (d : odict V) (k : string) :
  odict_get d k = None <-> ~ In k (map fst d).
Proof.
  induction d as [|[k0 v0] d IH]; simpl; [tauto|].
  destruct (String.eqb k k0) eqn:Hk.
  - apply String.eqb_eq in Hk. subst k0. split; [discriminate|tauto].
  - apply String.eqb_neq in Hk. rewrite IH. split.
    + intros H [H0|H0]; [congruence|tauto].
    + tauto.
Qed.

Lemma odict_set_fresh {V} (d : odict V) (k : string) (v : V) :
  ~ In k (map fst d) -> odict_set d k v = d ++ [(k, v)].
Proof.
  induction d as [|[k0 v0] d IH]; simpl; intros H; [reflexivity|].
  destruct (String.eqb k k0) eqn:Hk.
  - apply String.eqb_eq in Hk. subst k0. tauto.
  - rewrite IH by tauto. reflexivity.
Qed.

Section SessionDictionaries.

Context {F : Type} {PF : PyFloat F} {E : Type} {EN : OplEngine F E}.

(** X7: [set_input] with a value behaves as an ordered dictionary: the
    name then maps to the value given last, every other name keeps its
    value, a name registered before keeps its place in the order and a new
    name goes last; the data files, the engine and its call log are left
    alone. *)
Theorem set_input_registers :
  forall (name : string) (value : input_value F) (st : OplModel F E),
    let st' := set_input name (Some value) st in
    odict_get (_inputs st') name = Some value
    /\ (forall other, other <> name ->
                      odict_get (_inputs st') other = odict_get (_inputs st) other)
    /\ map fst (_inputs st')
       = match odict_get (_inputs st) name with
         | Some _ => map fst (_inputs st)
         | None => map fst (_inputs st) ++ [name]
         end
    /\ _datfiles st' = _datfiles st
    /\ _opl st' = _opl st
    /\ opl_calls st' = opl_calls st.
Proof.
  intros name value st st'. subst st'. simpl. repeat split.
  - rewrite odict_get_set, String.eqb_refl. reflexivity.
  - intros other Hne. rewrite odict_get_set.
    apply String.eqb_neq in Hne. rewrite Hne. reflexivity.
  - apply odict_set_keys.
Qed.

Lemma fieldDict_get_cons (d : fieldDict) (k k' : nat) (f : list Z) :
  fieldDict_get ((k', f) :: d) k = if Nat.eqb k k' then Some f else fieldDict_get d k.
Proof. reflexivity. Qed.

(** X8: [_getFields] answers from its cache: a schema object found in
    the cache is answered with the cached fields, whatever the engine would
    report, and the cache is left as it is; a schema object not yet cached
    is answered with the column types the engine reports and these are
    stored under it, the entries of other schema objects staying as they
    are; so every later call for the same schema object returns the first
    answer.  The size returned is the number of fields. *)
Theorem getFields_is_cached :
  forall (d : fieldDict) (schema : IloTupleSchema),
    (forall f, fieldDict_get d (schema_ident schema) = Some f ->
               _getFields d schema = ((f, List.length f), d))
    /\ (fieldDict_get d (schema_ident schema) = None ->
        fst (_getFields d schema)
        = (_getColumnTypes schema, List.length (_getColumnTypes schema))
        /\ fieldDict_get (snd (_getFields d schema)) (schema_ident schema)
           = Some (_getColumnTypes schema)
        /\ forall k, k <> schema_ident schema ->
                     fieldDict_get (snd (_getFields d schema)) k = fieldDict_get d k)
    /\ (forall schema', schema_ident schema' = schema_ident schema ->
                        _getFields (snd (_getFields d schema)) schema'
                        = (fst (_getFields d schema), snd (_getFields d schema)))
    /\ snd (fst (_getFields d schema)) = List.length (fst (fst (_getFields d schema))).
Proof.
  intros d schema. split; [|split; [|split]].
  - intros f Hf. unfold _getFields. rewrite Hf. reflexivity.
  - intros Hnone. unfold _getFields. rewrite Hnone. simpl.
    rewrite Nat.eqb_refl. repeat split.
    intros k Hk. apply Nat.eqb_neq in Hk. rewrite Hk. reflexivity.
  - intros schema' Hid. unfold _getFields. rewrite Hid.
    destruct (fieldDict_get d (schema_ident schema)) as [f|] eqn:Hd; simpl.
    + rewrite Hd. reflexivity.
    + rewrite Nat.eqb_refl. reflexivity.
  - unfold _getFields.
    destruct (fieldDict_get d (schema_ident schema)); reflexivity.
Qed.

(** X11: the mapping built by [cplex_stats] lists the thirty statistics in
    the order of the source, followed by the three MIP statistics exactly
    when the model is a MIP; each key holds what its CPLEX getter
    answered. *)
Theorem cplex_stats_keys :
  forall cplex : E,
    map fst (stats_dict cplex)
    = map fst stats_entries ++ (if isMIP cplex then map fst mip_entries else [])
    /\ List.length (stats_dict cplex) = (if isMIP cplex then 33 else 30)%nat
    /\ forall key method,
         In (key, method) (stats_entries ++ if isMIP cplex then mip_entries else []) ->
         odict_get (stats_dict cplex) key = Some (cplex_method method cplex).
Proof.
  intros cplex. unfold stats_dict. destruct (isMIP cplex).
  - split; [reflexivity|split; [reflexivity|]].
    intros key method Hin. simpl in Hin.
    repeat (destruct Hin as [[= <- <-]|Hin]; [reflexivity|]). destruct Hin.
  - split; [reflexivity|split; [reflexivity|]].
    intros key method Hin. simpl in Hin.
    repeat (destruct Hin as [[= <- <-]|Hin]; [reflexivity|]). destruct Hin.
Qed.

Lemma quality_step_kept (cplex : E) (ret : odict F) (i : nat) :
  quality_step cplex ret i
  = if quality_kept cplex i
    then odict_set ret (_getQualityEnumName cplex i) (_getQuality cplex i)
    else ret.
Proof.
  unfold quality_step, quality_kept.
  destruct (negb (i =? 10)%nat && negb (i =? 11)%nat); simpl; [|reflexivity].
  destruct (negb (float_eqb (_getQuality cplex i) p_inf)); reflexivity.
Qed.

Lemma quality_prefix_list (cplex : E) :
  (forall i j, (i < _getQualityEnumSize cplex)%nat -> (j < _getQualityEnumSize cplex)%nat ->
               _getQualityEnumName cplex i = _getQualityEnumName cplex j -> i = j) ->
  forall k, (k <= _getQualityEnumSize cplex)%nat ->
    fold_left (quality_step cplex) (seq 0 k) []
    = map (fun i => (_getQualityEnumName cplex i, _getQuality cplex i))
          (filter (quality_kept cplex) (seq 0 k)).
Proof.
  intros Hinj. induction k as [|k IH]; intros Hk; [reflexivity|].
  rewrite seq_S, fold_left_snoc, filter_app, map_app. simpl plus.
  rewrite IH by lia. rewrite quality_step_kept. simpl filter.
  destruct (quality_kept cplex k); [|simpl; rewrite app_nil_r; reflexivity].
  simpl map. apply odict_set_fresh.
  rewrite map_map. simpl. intros Hin. apply in_map_iff in Hin as (j & Hj & Hin).
  apply filter_In in Hin as [Hin _]. apply in_seq in Hin.
  apply Hinj in Hj; lia.
Qed.

(** X12: with the names of the quality enumeration pairwise distinct, the
    mapping built by [cplex_quality] is the list of the kept metrics in
    the order of the enumeration, each with its name and its value. *)
Theorem cplex_quality_in_enumeration_order :
  forall cplex : E,
    (forall i j, (i < _getQualityEnumSize cplex)%nat ->
                 (j < _getQualityEnumSize cplex)%nat ->
                 _getQualityEnumName cplex i = _getQualityEnumName cplex j -> i = j) ->
    quality_dict cplex
    = map (fun i => (_getQualityEnumName cplex i, _getQuality cplex i))
          (filter (quality_kept cplex) (seq 0 (_getQualityEnumSize cplex))).
Proof.
  intros cplex Hinj. unfold quality_dict. apply quality_prefix_list; [exact Hinj|lia].
Qed.

End SessionDictionaries.

(** ** The extension of an exported file *)

Lemma string_length_append (p s : string) :
  String.length (p ++ s) = (String.length p + String.length s)%nat.
Proof. induction p as [|c p IH]; simpl; [reflexivity|rewrite IH; reflexivity]. Qed.

Lemma substring_whole (s : string) : substring 0 (String.length s) s = s.
Proof. induction s as [|c s IH]; simpl; [reflexivity|rewrite IH; reflexivity]. Qed.

Lemma substring_skip_prefix (p s : string) (n : nat) :
  substring (String.length p) n (p ++ s) = substring 0 n s.
Proof. induction p as [|c p IH]; simpl; [reflexivity|exact IH]. Qed.

Lemma substring_split (s : string) : forall n,
  (n <= String.length s)%nat ->
  s = (substring 0 n s ++ substring n (String.length s - n) s)%string.
Proof.
  induction s as [|c s IH]; intros n Hn.
  - destruct n; reflexivity.
  - destruct n as [|n].
    + simpl. rewrite substring_whole. reflexivity.
    + simpl in *. rewrite <- IH by lia. reflexivity.
Qed.

Lemma last3_suffix (p ext : string) :
  String.length ext = 3%nat -> last3 (p ++ ext) = ext.
Proof.
  intros H. unfold last3. rewrite string_length_append, H.
  replace (String.length p + 3 - 3)%nat with (String.length p) by lia.
  rewrite substring_skip_prefix, <- H. apply substring_whole.
Qed.

(** X13: the extension check of [export_model] accepts exactly the names
    that end in one of "sav", ".lp", "cpo", "mps": the three characters
    are compared as they are, so "sav", "cpo" and "mps" need no dot before
    them and upper-case extensions are refused. *)
Theorem extension_check_is_a_suffix_test :
  forall name : string,
    extension_allowed (last3 name) = true
    <-> exists p ext, name = (p ++ ext)%string /\ In ext ["sav"; ".lp"; "cpo"; "mps"].
Proof.
  intros name. rewrite extension_allowed_In. split.
  - intros Hin. exists (substring 0 (String.length name - 3) name), (last3 name).
    split; [|exact Hin].
    destruct (Nat.le_gt_cases 3 (String.length name)) as [Hlen|Hlen].
    + unfold last3.
      rewrite (substring_split name (n := String.length name - 3)) at 1 by lia.
      replace (String.length name - (String.length name - 3))%nat with 3%nat by lia.
      reflexivity.
    + assert (Hl3 : String.length (last3 name) = 3%nat).
      { simpl in Hin. destruct Hin as [<-|[<-|[<-|[<-|[]]]]]; reflexivity. }
      unfold last3 in *.
      replace (String.length name - 3)%nat with 0%nat in * by lia.
      destruct name as [|a [|b [|c [|d name]]]]; simpl in *; try discriminate; lia.
  - intros (p & ext & -> & Hin).
    rewrite last3_suffix; [exact Hin|].
    simpl in Hin. destruct Hin as [<-|[<-|[<-|[<-|[]]]]]; reflexivity.
Qed.

(** ** Labels and tables *)

Lemma fold_seq_steps {C} (step : result (list string) -> nat -> result (list string))
      (h : C -> list string) : forall (cols : list C) (k : nat) (acc : list string),
  (forall j c ns, nth_error cols j = Some c -> step (Ok ns) (k + j)%nat = Ok (ns ++ h c)) ->
  fold_left step (seq k (List.length cols)) (Ok acc)
  = Ok (acc ++ List.concat (map h cols)).
Proof.
  induction cols as [|c cols IH]; intros k acc H.
  - simpl. rewrite app_nil_r. reflexivity.
  - simpl. specialize (H 0%nat c acc eq_refl) as H0. rewrite Nat.add_0_r in H0.
    rewrite H0, IH.
    + rewrite <- app_assoc. reflexivity.
    + intros j c' ns Hj. rewrite <- (H (S j) c' ns Hj). f_equal. lia.
Qed.

Lemma concat_singletons {A B} (f : A -> B) (l : list A) :
  List.concat (map (fun a => [f a]) l) = map f l.
Proof. induction l as [|a l IH]; simpl; [reflexivity|rewrite IH; reflexivity]. Qed.

(** The labels of one column, as the naming convention has them. *)
Lemma flatten_names_columns (s : IloTupleSchema) :
  flatten_names s
  = List.concat
      (map (fun c => match c with
                     | Column n => [n]
                     | TupleColumn _ sub =>
                         map (fun n => (getName sub ++ "." ++ n)%string) (flatten_names sub)
                     end) (schema_columns s)).
Proof.
  destruct s as [ident name key types columns]. simpl.
  induction columns as [|c columns IH]; [reflexivity|].
  destruct c as [n|n sub]; simpl; rewrite IH; reflexivity.
Qed.

Lemma flatten_names_flat (s : IloTupleSchema) :
  _hasSubTuple s = false -> flatten_names s = map column_name (schema_columns s).
Proof.
  intros H. rewrite flatten_names_columns. unfold _hasSubTuple in H.
  induction (schema_columns s) as [|c cols IH]; [reflexivity|].
  cbn [existsb] in H. apply orb_false_iff in H as [Hc Hcols].
  destruct c as [n|n sub]; [|discriminate].
  cbn [map List.concat app column_name]. f_equal. exact (IH Hcols).
Qed.

Lemma get_names_flat (depth : nat) (schema schem : IloTupleSchema) :
  _hasSubTuple schem = false ->
  get_names (S depth) schema schem = Ok (map column_name (schema_columns schem)).
Proof.
  intros H. simpl. rewrite H. simpl. unfold getSize.
  rewrite (fold_seq_steps _ (fun c => [column_name c])).
  - simpl. rewrite concat_singletons. reflexivity.
  - intros j c ns Hj. simpl. unfold getColumnName. rewrite Hj. reflexivity.
Qed.

Lemma get_names_once (schema : IloTupleSchema) :
  nested_once schema ->
  get_names recursion_limit schema schema = Ok (flatten_names schema).
Proof.
  intros Hn. unfold recursion_limit.
  change 1000%nat with (S (S 998)).
  destruct (_hasSubTuple schema) eqn:Hsub.
  - rewrite flatten_names_columns.
    change (get_names (S (S 998)) schema schema)
      with (if negb (_hasSubTuple schema) then
              fold_left (fun names i =>
                           rbind names (fun ns =>
                           rbind (getColumnName schema i) (fun n => Ok (ns ++ [n]))))
                        (seq 0 (getSize schema)) (Ok [])
            else
              fold_left (fun names i =>
                           rbind names (fun ns =>
                           if _isTuple schema i then
                             rbind (_getTupleColumn schema i) (fun sub =>
                             rbind (get_names (S 998) schema sub) (fun subNames =>
                             let subName := getName sub in
                             Ok (ns ++ map (fun n => (subName ++ "." ++ n)%string) subNames)))
                           else
                             rbind (getColumnName schema i) (fun n => Ok (ns ++ [n]))))
                        (seq 0 (getSize schema)) (Ok [])).
    rewrite Hsub. simpl negb. cbv iota. unfold getSize.
    rewrite (fold_seq_steps _
               (fun c => match c with
                         | Column n => [n]
                         | TupleColumn _ sub =>
                             map (fun n => (getName sub ++ "." ++ n)%string)
                                 (flatten_names sub)
                         end)).
    + reflexivity.
    + intros j c ns Hj. simpl plus. unfold rbind at 1.
      unfold _isTuple, _getTupleColumn, getColumnName. rewrite Hj.
      unfold nested_once in Hn. rewrite Forall_forall in Hn.
      specialize (Hn c (nth_error_In _ _ Hj)).
      destruct c as [n|n sub]; cbn [column_is_tuple column_name rbind].
      * reflexivity.
      * assert (Hflat : get_names 999 schema sub = Ok (map column_name (schema_columns sub)))
          by (apply get_names_flat; exact Hn).
        rewrite Hflat. cbn [rbind].
        rewrite flatten_names_flat by exact Hn. reflexivity.
  - rewrite flatten_names_flat by exact Hsub. apply get_names_flat. exact Hsub.
Qed.

(** X9: for a schema whose composite columns hold plain columns only, the
    labels computed by [get_names] are those of the "outer.inner"
    convention: a plain column keeps its name and each column of a
    composite column is prefixed with the name of the sub-tuple and a
    dot; a schema without composite columns is labelled with its column
    names. *)
Theorem get_names_nested_once :
  forall schema : IloTupleSchema,
    (nested_once schema ->
     get_names recursion_limit schema schema = Ok (flatten_names schema))
    /\ (_hasSubTuple schema = false ->
        get_names recursion_limit schema schema
        = Ok (map column_name (schema_columns schema))).
Proof.
  intros schema. split.
  - apply get_names_once.
  - intros Hflat. unfold recursion_limit. apply get_names_flat. exact Hflat.
Qed.

Section Tables.

Context {F : Type} {PF : PyFloat F} {E : Type} {EN : OplEngine F E}.

Implicit Types (st : OplModel F E).

Lemma read_columns_reader (tset : IloTupleSet F) : forall (fields : list Z) (i : nat),
  read_columns tset i fields
  = map (fun p => column_reader tset (snd p) (fst p))
        (combine (seq i (List.length fields)) fields).
Proof.
  induction fields as [|type fields IH]; intros i; [reflexivity|].
  simpl. rewrite IH. reflexivity.
Qed.

Lemma read_columns_holds (tset : IloTupleSet F) :
  forall (fields : list Z) (k : nat) (cols : list (list (pyval F))),
    List.length fields = List.length cols ->
    (forall j type col, nth_error fields j = Some type -> nth_error cols j = Some col ->
                        column_reader tset type (k + j) = col) ->
    read_columns tset k fields = cols.
Proof.
  induction fields as [|type fields IH]; intros k cols Hlen H.
  - destruct cols; [reflexivity|discriminate].
  - destruct cols as [|col cols]; [discriminate|].
    simpl. fold (column_reader tset type k).
    pose proof (H 0%nat type col eq_refl eq_refl) as H0. rewrite Nat.add_0_r in H0.
    rewrite H0. f_equal. apply IH; [simpl in Hlen; congruence|].
    intros j t c Hf Hc. rewrite <- (H (S j) t c Hf Hc). f_equal. lia.
Qed.

Lemma is_tuple_set_run (name : string) (elt : IloOplElement F) st :
  getElement name (_opl st) = Some elt ->
  _is_tuple_set name st = (Ok (is_tuple_set_element elt), st).
Proof.
  intros He. unfold _is_tuple_set, is_tuple_set_element. rewrite He.
  destruct (isDiscreteDataCollection elt); [|reflexivity].
  destruct (isTupleSet elt); reflexivity.
Qed.

Lemma get_table_of_tuple_set (name : string) (as_pandas : bool)
      (elt : IloOplElement F) (tset : IloTupleSet F) st :
  getElement name (_opl st) = Some elt ->
  is_tuple_set_element elt = true ->
  asTupleSet elt = Ok tset ->
  get_table name as_pandas st = __getTupleSet tset as_pandas st.
Proof.
  intros He Hts Has. unfold get_table.
  erewrite bind_ok by (apply is_tuple_set_run; exact He).
  rewrite Hts, He, Has. reflexivity.
Qed.

Lemma get_table_of_columns (name : string) (as_pandas : bool) (st : OplModel F E)
      (elt : IloOplElement F) (tset : IloTupleSet F) (cols : list (list (pyval F))) :
  getElement name (_opl st) = Some elt ->
  is_tuple_set_element elt = true ->
  asTupleSet elt = Ok tset ->
  holds_columns tset (fst (fst (_getFields (_fieldDict st) (getSchema tset)))) cols ->
  get_table name as_pandas st
  = (let st' := set_fieldDict st (snd (_getFields (_fieldDict st) (getSchema tset))) in
     if negb as_pandas then (Ok (Rows (zip_star cols)), st')
     else match get_names recursion_limit (getSchema tset) (getSchema tset) with
          | Ok names => (Ok (DataFrame (zip_star cols) names), st')
          | Raise e => (Raise e, st')
          end).
Proof.
  intros He Hts Has [Hlen Hcols].
  erewrite get_table_of_tuple_set by eassumption.
  unfold __getTupleSet.
  destruct (_getFields (_fieldDict st) (getSchema tset)) as [ff d]. simpl in *.
  erewrite read_columns_holds by eassumption. reflexivity.
Qed.

(** X10: for a name that resolves to a tuple set holding the columns
    [cols], [get_table] returns the transposition of the columns as row
    tuples, or as a frame with the labels of the schema when the schema
    nests at most once; when the columns are those the column path wrote
    for rows of one positive width, the row tuples are those rows. *)
Theorem get_table_returns_rows :
  forall (name : string) (st : OplModel F E) (elt : IloOplElement F)
         (tset : IloTupleSet F) (cols : list (list (pyval F))),
    getElement name (_opl st) = Some elt ->
    is_tuple_set_element elt = true ->
    asTupleSet elt = Ok tset ->
    holds_columns tset (fst (fst (_getFields (_fieldDict st) (getSchema tset)))) cols ->
    fst (get_table name false st) = Ok (Rows (zip_star cols))
    /\ (nested_once (getSchema tset) ->
        fst (get_table name true st)
        = Ok (DataFrame (zip_star cols) (flatten_names (getSchema tset))))
    /\ (forall n rows, (0 < n)%nat -> Forall (fun r => List.length r = n) rows ->
                       cols = zip_star rows ->
                       fst (get_table name false st) = Ok (Rows rows)).
Proof.
  intros name st elt tset cols He Hts Has Hcols.
  split; [|split].
  - erewrite get_table_of_columns by eassumption. reflexivity.
  - intros Hn. erewrite get_table_of_columns by eassumption.
    simpl negb. cbv zeta iota.
    rewrite get_names_once by exact Hn. reflexivity.
  - intros n rows Hn Hrect ->. erewrite get_table_of_columns by eassumption. simpl.
    erewrite zip_star_involutive by eassumption. reflexivity.
Qed.

(** X19: once the engine reports the model as generated, [set_input] no
    longer reaches it: [__generate] is a no-op on the session with the new
    input, and the next [run] issues no settings call, attaches no data
    source and does not call [generate]. *)
Theorem inputs_after_generation_are_ignored :
  forall (st : OplModel F E) (name : string) (value : option (input_value F)),
    isGenerated (_opl st) = true ->
    let st' := set_input name value st in
    __generate st' = (true, st')
    /\ forall c, In c (new_calls st' (snd (run st'))) -> is_generation_call c = false.
Proof.
  intros st name value Hg st'.
  assert (Hg' : isGenerated (_opl st') = true) by (destruct value; exact Hg).
  split.
  - unfold __generate. rewrite generate_try_generated by exact Hg'. reflexivity.
  - apply run_new_calls_generated. exact Hg'.
Qed.

End Tables.

(** ** The remaining operations *)

Section MoreProperties.

Context {F : Type} {PF : PyFloat F} {E : Type} {EN : OplEngine F E}
        {EM : OplEngineMore E}.

Implicit Types (st : OplModel F E).

Lemma run_seed_cases (nb : Z) st :
  hasMain (_opl st) = false ->
  opl_calls (snd (run_seed nb st))
  = opl_calls st ++ (if isGenerated (_opl st) then [] else [call_generate])
  /\ stdout (snd (run_seed nb st)) = stdout st
  /\ (isGenerated (_opl st) = true ->
      run_seed nb st = (Ok tt, put_opl st (runSeed nb (_opl st))))
  /\ (isGenerated (_opl st) = false ->
      forall e, snd (generate (_opl st)) = e ->
      match fst (generate (_opl st)) with
      | Ok _ =>
          run_seed nb st
          = (Ok tt, put_opl (with_opl st e call_generate) (runSeed nb e))
      | Raise x => run_seed nb st = (Raise x, with_opl st e call_generate)
      end).
Proof.
  intros Hm. unfold run_seed. rewrite Hm.
  destruct (isGenerated (_opl st)) eqn:Hg; simpl negb; cbv iota.
  - unfold bind, ret, modify. simpl. rewrite app_nil_r.
    repeat split; intros; discriminate.
  - unfold bind, opl_try, modify.
    destruct (generate (_opl st)) as [[[]|x] e0]; simpl;
      (repeat split; try discriminate); intros _ e <-; reflexivity.
Qed.

(** X14: [run_seed] refuses a model with a main block before anything
    else.  Otherwise it has the engine generate the model when it is not
    generated yet, by a bare call of [generate]: no settings call, no data
    source attached; an exception of that call is passed on as it is,
    nothing is printed and [runSeed] is not reached. *)
Theorem run_seed_outcome :
  forall (nb : Z) (st : OplModel F E),
    (hasMain (_opl st) = true ->
     run_seed nb st = (Raise (ValueError "Model has main"), st))
    /\ (hasMain (_opl st) = false ->
        opl_calls (snd (run_seed nb st))
        = opl_calls st ++ (if isGenerated (_opl st) then [] else [call_generate])
        /\ stdout (snd (run_seed nb st)) = stdout st
        /\ (forall x e, isGenerated (_opl st) = false ->
                        generate (_opl st) = (Raise x, e) ->
                        run_seed nb st = (Raise x, with_opl st e call_generate)
                        /\ _opl (snd (run_seed nb st)) = e)
        /\ (isGenerated (_opl st) = true \/ is_ok (fst (generate (_opl st))) = true ->
            fst (run_seed nb st) = Ok tt)).
Proof.
  intros nb st. split.
  - intros Hm. unfold run_seed. rewrite Hm. reflexivity.
  - intros Hm. destruct (run_seed_cases nb st Hm) as (Hcalls & Hout & Hgen & Hfresh).
    split; [exact Hcalls|split; [exact Hout|split]].
    + intros x e Hg Hraise. specialize (Hfresh Hg e).
      rewrite Hraise in Hfresh. simpl in Hfresh. rewrite (Hfresh eq_refl).
      split; reflexivity.
    + intros [Hg|Hok].
      * rewrite (Hgen Hg). reflexivity.
      * destruct (isGenerated (_opl st)) eqn:Hg; [rewrite (Hgen eq_refl); reflexivity|].
        specialize (Hfresh eq_refl _ eq_refl).
        destruct (fst (generate (_opl st))); [rewrite Hfresh; reflexivity|discriminate].
Qed.

(** X15: after a [run_seed] that went through, on an engine that reports
    a generated model as generated from then on, the following [run] does
    no generation: the data sources of the registered inputs and data
    files have not been attached by [run_seed] and are not attached by
    [run] either. *)
Theorem run_after_run_seed_attaches_nothing :
  generation_recorded ->
  (forall nb e, isGenerated e = true -> isGenerated (runSeed nb e) = true) ->
  forall (nb : Z) (st : OplModel F E),
    hasMain (_opl st) = false ->
    fst (run_seed nb st) = Ok tt ->
    let st1 := snd (run_seed nb st) in
    (forall src, ~ In (call_addDataSource src) (new_calls st st1))
    /\ __generate st1 = (true, st1)
    /\ forall c, In c (new_calls st1 (snd (run st1))) -> is_generation_call c = false.
Proof.
  intros Hrec Hseed nb st Hm Hok st1.
  destruct (run_seed_cases nb st Hm) as (Hcalls & _ & Hgen & Hfresh).
  assert (Hg1 : isGenerated (_opl st1) = true).
  { subst st1. destruct (isGenerated (_opl st)) eqn:Hg.
    - rewrite (Hgen eq_refl). simpl. apply Hseed. exact Hg.
    - specialize (Hfresh eq_refl _ eq_refl).
      destruct (generate (_opl st)) as [[[]|x] e0] eqn:Hgenerate; simpl in Hfresh.
      + rewrite Hfresh. simpl. apply Hseed.
        destruct Hrec as [Hr _]. exact (Hr _ _ Hgenerate).
      + rewrite Hfresh in Hok. discriminate. }
  split; [|split].
  - intros src Hin. unfold new_calls in Hin. subst st1.
    rewrite Hcalls, skipn_app_length in Hin.
    destruct (isGenerated (_opl st)); simpl in Hin;
      [exact Hin|destruct Hin as [Hin|[]]; discriminate].
  - unfold __generate. rewrite generate_try_generated by exact Hg1. reflexivity.
  - apply run_new_calls_generated. exact Hg1.
Qed.

(** X16: what each operation does once [__generate] has answered [False]:
    [run], [print_relaxation] and [print_conflict] raise the usage error,
    [export_model] raises the [TypeError] of its [raise] on a string, and
    [compile] drops the answer and calls the engine's [compile]
    nevertheless; in every case the session is the one left by the failed
    generation, with the message printed. *)
Theorem generation_failure_by_operation :
  forall (st : OplModel F E) (name : string),
    fst (__generate st) = false ->
    let st1 := snd (__generate st) in
    (exists msg, run st = (Raise (ValueError msg), st1))
    /\ (exists msg, print_relaxation st = (Raise (ValueError msg), st1))
    /\ (exists msg, print_conflict st = (Raise (ValueError msg), st1))
    /\ (extension_allowed (last3 name) = true ->
        exists msg, export_model name st = (Raise (TypeError msg), st1))
    /\ compile name st = (Ok tt, put_opl st1 (opl_compile name (_opl st1)))
    /\ exists e st0, generate_try st = (Raise e, st0)
                     /\ stdout st1 = stdout st0 ++ [exn_msg e].
Proof.
  intros st name Hg st1. subst st1.
  repeat split.
  - unfold run. destruct (__generate st) as [g s1]. simpl in Hg. subst g. eauto.
  - unfold print_relaxation. destruct (__generate st) as [g s1]. simpl in Hg. subst g. eauto.
  - unfold print_conflict. destruct (__generate st) as [g s1]. simpl in Hg. subst g. eauto.
  - intros Hext. unfold export_model. rewrite Hext. cbn [negb]. cbv beta iota.
    destruct (__generate st) as [g s1]. simpl in Hg. subst g.
    eexists. reflexivity.
  - unfold compile. destruct (__generate st) as [g s1]. reflexivity.
  - destruct (generate_outcome st) as [[st' [H1 H2]]|[e [st' [H1 H2]]]];
      rewrite H2 in *; simpl in *; [discriminate|].
    exists e, st'. split; [exact H1|reflexivity].
Qed.

(** X17: [print_relaxation] refuses a CP model only after the model has
    been generated: on a model not generated before, the settings call,
    the data sources and [generate] have been issued when the usage error
    is raised; [print_conflict] has no such check and answers on both
    backends. *)
Theorem print_relaxation_on_cp :
  forall st : OplModel F E,
    fst (__generate st) = true ->
    let st1 := snd (__generate st) in
    (isUsingCP (_opl st1) = true ->
     exists msg, print_relaxation st = (Raise (ValueError msg), st1))
    /\ (isUsingCP (_opl st1) = false ->
        print_relaxation st
        = (Ok (fst (_printRelaxation (_opl st1))),
           put_opl st1 (snd (_printRelaxation (_opl st1)))))
    /\ print_conflict st
       = (Ok (fst (_printConflict (_opl st1))),
          put_opl st1 (snd (_printConflict (_opl st1))))
    /\ (isGenerated (_opl st) = false ->
        opl_calls st1
        = opl_calls st ++ call_setSkipWarnNeverUsedElements true
            :: attached_sources st ++ [call_generate]).
Proof.
  intros st Hg st1. subst st1.
  destruct (generate_outcome st) as [[st' [H1 H2]]|[e [st' [H1 H2]]]];
    rewrite H2 in *; simpl in *; [|discriminate].
  unfold print_relaxation, print_conflict. rewrite H2.
  split; [|split; [|split]].
  - intros ->. eauto.
  - intros ->. destruct (_printRelaxation (_opl st')). reflexivity.
  - destruct (_printConflict (_opl st')). reflexivity.
  - intros Hfresh. apply (generate_try_fresh _ Hfresh H1).
Qed.

Lemma report_table_names_resolved : forall (names : list string)
    (elts : list (IloOplElement F)) (rep : list string) st,
  Forall2 (fun name elt => getElement name (_opl st) = Some elt) names elts ->
  report_table_names_from names rep st
  = (Ok (rep ++ map (@elt_getName F) (filter (@is_tuple_set_element F) elts)), st).
Proof.
  intros names elts rep st H. revert rep.
  induction H as [|name elt names elts He _ IH]; intros rep.
  - simpl. rewrite app_nil_r. reflexivity.
  - simpl. rewrite He. erewrite bind_ok by (apply is_tuple_set_run; exact He).
    destruct (is_tuple_set_element elt).
    + rewrite IH. simpl. rewrite <- app_assoc. reflexivity.
    + apply IH.
Qed.

Lemma report_table_names_unresolved : forall (names : list string)
    (elts : list (IloOplElement F)) (name : string) (rest rep : list string) st,
  Forall2 (fun name elt => getElement name (_opl st) = Some elt) names elts ->
  getElement name (_opl st) = None ->
  report_table_names_from (names ++ name :: rest) rep st
  = (Raise (EngineError ("no element " ++ name)%string), st).
Proof.
  intros names elts name rest rep st H Hnone. revert rep.
  induction H as [|name' elt names elts He _ IH]; intros rep.
  - simpl. rewrite Hnone. reflexivity.
  - simpl. rewrite He. erewrite bind_ok by (apply is_tuple_set_run; exact He).
    destruct (is_tuple_set_element elt); apply IH.
Qed.

(** X18: [output_table_names] lists, in the order of the post-processing
    scope, the element names of those entries that resolve to tuple sets,
    and leaves the session as it is; at the first name of the scope that
    the engine cannot resolve, the exception of [getElement] is passed on
    as the engine's error: unlike [get_table] and [get_kpi], this method
    does not turn it into a usage error. *)
Theorem output_table_names_lists_tuple_sets :
  forall (st : OplModel F E) (elts : list (IloOplElement F)),
    (Forall2 (fun name elt => getElement name (_opl st) = Some elt)
             (getElementNamesInPostProcessing (_opl st)) elts ->
     _get_report_table_names st
     = (Ok (map (@elt_getName F) (filter (@is_tuple_set_element F) elts)), st))
    /\ (forall names name rest,
           getElementNamesInPostProcessing (_opl st) = names ++ name :: rest ->
           Forall2 (fun name elt => getElement name (_opl st) = Some elt) names elts ->
           getElement name (_opl st) = None ->
           _get_report_table_names st
           = (Raise (EngineError ("no element " ++ name)%string), st)
           /\ (exists msg, get_table name true st = (Raise (ValueError msg), st))).
Proof.
  intros st elts. split.
  - intros H. unfold _get_report_table_names.
    erewrite report_table_names_resolved by exact H. reflexivity.
  - intros names name rest Hn H Hnone. split.
    + unfold _get_report_table_names. rewrite Hn.
      eapply report_table_names_unresolved; eassumption.
    + unfold get_table, bind, _is_tuple_set. rewrite Hnone. eauto.
Qed.

(** X20: [_to_sql] looks the table up before it touches the connection:
    a name that is no tuple set, or a destination table that does not
    exist, raises with no statement executed.  Otherwise the destination
    is cleared by a DELETE and, when the table has rows, the rows read
    from the engine are inserted by one statement with one placeholder per
    column; an empty table leaves the destination cleared. *)
Theorem to_sql_statements :
  forall (has_table : string -> bool) (name : string) (st : OplModel F E)
         (con : list (sql_call F)),
    (forall e st', get_table name false st = (Raise e, st') ->
                   _to_sql has_table name st con = (Raise e, st', con))
    /\ (forall (elt : IloOplElement F) (tset : IloTupleSet F)
               (cols : list (list (pyval F))),
           getElement name (_opl st) = Some elt ->
           is_tuple_set_element elt = true ->
           asTupleSet elt = Ok tset ->
           holds_columns tset (fst (fst (_getFields (_fieldDict st) (getSchema tset)))) cols ->
           (has_table name = false ->
            exists msg st',
              _to_sql has_table name st con = (Raise (ValueError msg), st', con))
           /\ (has_table name = true ->
               exists st',
                 _to_sql has_table name st con
                 = (Ok tt, st',
                    con ++ con_execute ("DELETE FROM " ++ name)%string
                        :: match zip_star cols with
                           | [] => []
                           | row :: _ =>
                               [con_execute_rows
                                  ("INSERT INTO " ++ name ++ " VALUES ("
                                     ++ wildcards (List.length row) ++ ")")%string
                                  (zip_star cols)]
                           end))).
Proof.
  intros has_table name st con. split.
  - intros e st' H. unfold _to_sql. rewrite H. reflexivity.
  - intros elt tset cols He Hts Has Hcols.
    assert (Hget : exists st', get_table name false st = (Ok (Rows (zip_star cols)), st')).
    { erewrite get_table_of_columns by eassumption. simpl. eauto. }
    destruct Hget as [st' Hget]. unfold _to_sql. rewrite Hget. simpl table_rows.
    split; intros ->; simpl negb; cbv iota.
    + eauto.
    + exists st'. destruct (zip_star cols) as [|row rows]; simpl.
      * reflexivity.
      * rewrite <- app_assoc. reflexivity.
Qed.

End MoreProperties.

(** ** Concrete runs of the further operations *)

Lemma sample_more_generation_recorded : generation_recorded (EN := SampleMore.opl).
Proof.
  unfold generation_recorded. simpl. repeat split; auto.
  intros e e'. unfold SampleMore.on_base, Sample.engine_generate.
  destruct (Sample.generate_ok (SampleMore.base e)); [|discriminate].
  intros [= <-]. reflexivity.
Qed.

Lemma zip_star_round_trip_items :
  zip_star (zip_star Sample.items_rows) = Sample.items_rows
  /\ (Sample.items_rows <> [] -> List.length (zip_star Sample.items_rows) = 3%nat)
  /\ Forall (fun c => List.length c = List.length Sample.items_rows)
            (zip_star Sample.items_rows).
Proof.
  apply (@zip_star_round_trip (pyval Sample.float) 3 Sample.items_rows).
  - lia.
  - repeat constructor.
Defined.



Lemma bulk_fill_of_four_columns :
  fillTupleSet "Items" [OPL_INTEGER; OPL_STRING; OPL_FLOAT]
               (zip_star Sample.items_rows ++ [[PStr "x"; PStr "y"]]) Sample.empty_handler
  = fillTupleSet "Items" [OPL_INTEGER; OPL_STRING; OPL_FLOAT]
                 (zip_star Sample.items_rows) Sample.empty_handler.
Proof.
  apply (@bulk_fill_ignores_surplus_columns _ _ "Items"
           [OPL_INTEGER; OPL_STRING; OPL_FLOAT] (zip_star Sample.items_rows)).
  - vm_compute. discriminate.
  - vm_compute. lia.
Defined.

Lemma row_of_two_cells_for_one_column :
  exists st',
    read_input (fun _ => Ok Sample.labels_schema) "Labels"
               (VIterable ([[PStr "a"]] ++ [PStr "b"; PStr "c"] :: [[PStr "d"]]))
               Sample.empty_handler
    = (Raise (IndexError "list index out of range"), st')
    /\ dh_calls st'
       = dh_calls Sample.empty_handler
           ++ [dh_prepareSet "Labels";
               dh_IloTupleCellArray
                 (List.length (fst (fst (_getFields (dh_fields Sample.empty_handler)
                                                    Sample.labels_schema))))]
           ++ List.concat
                (map (fun cs =>
                        cs ++ [if hasKey Sample.labels_schema
                               then dh_commit "Labels" false
                               else dh_commit2HashTable "Labels" false])
                     [[dh_setStringValue 0 "a"]])
           ++ [dh_setStringValue 0 "b"].
Proof.
  apply (@row_longer_than_schema _ _ (fun _ => Ok Sample.labels_schema) "Labels"
           Sample.labels_schema [[PStr "a"]] [[dh_setStringValue 0 "a"]]
           [PStr "b"; PStr "c"] [dh_setStringValue 0 "b"] [[PStr "d"]]
           Sample.empty_handler).
  - reflexivity.
  - repeat constructor.
  - simpl. lia.
  - reflexivity.
Defined.

Lemma labels_of_sample_schemas :
  get_names recursion_limit Sample.schema_T Sample.schema_T
  = Ok (flatten_names Sample.schema_T)
  /\ get_names recursion_limit Sample.items_schema Sample.items_schema
     = Ok (map column_name (schema_columns Sample.items_schema)).
Proof.
  split.
  - apply (get_names_nested_once Sample.schema_T).
    repeat constructor.
  - apply (get_names_nested_once Sample.items_schema). reflexivity.
Defined.

Lemma sample_result_columns :
  holds_columns SampleMore.result_set
    (fst (fst (_getFields (_fieldDict (SampleMore.session SampleMore.cplex_engine))
                          (getSchema SampleMore.result_set))))
    SampleMore.result_columns.
Proof.
  split; [reflexivity|].
  intros i type col Hf Hc.
  destruct i as [|[|i]]; simpl in Hf, Hc.
  - injection Hf as <-. injection Hc as <-. reflexivity.
  - injection Hf as <-. injection Hc as <-. reflexivity.
  - destruct i; discriminate.
Qed.

Lemma table_of_sample_result :
  fst (get_table "Result" false (SampleMore.session SampleMore.cplex_engine))
  = Ok (Rows (zip_star SampleMore.result_columns))
  /\ (nested_once (getSchema SampleMore.result_set) ->
      fst (get_table "Result" true (SampleMore.session SampleMore.cplex_engine))
      = Ok (DataFrame (zip_star SampleMore.result_columns)
                      (flatten_names (getSchema SampleMore.result_set))))
  /\ (forall n rows, (0 < n)%nat -> Forall (fun r => List.length r = n) rows ->
                     SampleMore.result_columns = zip_star rows ->
                     fst (get_table "Result" false (SampleMore.session SampleMore.cplex_engine))
                     = Ok (Rows rows)).
Proof.
  apply (get_table_returns_rows "Result" (SampleMore.session SampleMore.cplex_engine)
           (elt := SampleMore.result_element) (tset := SampleMore.result_set)
           (cols := SampleMore.result_columns)).
  - reflexivity.
  - reflexivity.
  - reflexivity.
  - exact sample_result_columns.
Defined.

Lemma quality_order_of_sample_engine :
  quality_dict Sample.cplex_engine
  = map (fun i => (_getQualityEnumName Sample.cplex_engine i,
                   _getQuality Sample.cplex_engine i))
        (filter (quality_kept Sample.cplex_engine)
                (seq 0 (_getQualityEnumSize Sample.cplex_engine))).
Proof.
  apply cplex_quality_in_enumeration_order.
  intros i j Hi Hj.
  destruct i as [|[|[|i]]]; destruct j as [|[|[|j]]];
    simpl in *; try reflexivity; try discriminate; lia.
Defined.

Lemma run_seed_on_sample_engines :
  run_seed 3 (SampleMore.session SampleMore.main_engine)
  = (Raise (ValueError "Model has main"), SampleMore.session SampleMore.main_engine)
  /\ opl_calls (snd (run_seed 3 (SampleMore.session SampleMore.cplex_engine)))
     = opl_calls (SampleMore.session SampleMore.cplex_engine)
         ++ (if isGenerated (_opl (SampleMore.session SampleMore.cplex_engine))
             then [] else [call_generate]).
Proof.
  split.
  - apply (run_seed_outcome 3 (SampleMore.session SampleMore.main_engine)). reflexivity.
  - apply (run_seed_outcome 3 (SampleMore.session SampleMore.cplex_engine)). reflexivity.
Defined.

Lemma run_after_run_seed_on_sample_session :
  (forall src,
      ~ In (call_addDataSource src)
           (new_calls (SampleMore.session SampleMore.cplex_engine)
                      (snd (run_seed 3 (SampleMore.session SampleMore.cplex_engine)))))
  /\ __generate (snd (run_seed 3 (SampleMore.session SampleMore.cplex_engine)))
     = (true, snd (run_seed 3 (SampleMore.session SampleMore.cplex_engine)))
  /\ forall c,
       In c (new_calls (snd (run_seed 3 (SampleMore.session SampleMore.cplex_engine)))
                       (snd (run (snd (run_seed 3 (SampleMore.session
                                                     SampleMore.cplex_engine)))))) ->
       is_generation_call c = false.
Proof.
  apply run_after_run_seed_attaches_nothing.
  - exact sample_more_generation_recorded.
  - intros nb e H. exact H.
  - reflexivity.
  - reflexivity.
Defined.

Lemma failed_generation_on_sample_session :
  (exists msg, run (SampleMore.session SampleMore.failing_engine)
               = (Raise (ValueError msg),
                  snd (__generate (SampleMore.session SampleMore.failing_engine))))
  /\ (exists msg, print_relaxation (SampleMore.session SampleMore.failing_engine)
                  = (Raise (ValueError msg),
                     snd (__generate (SampleMore.session SampleMore.failing_engine))))
  /\ (exists msg, print_conflict (SampleMore.session SampleMore.failing_engine)
                  = (Raise (ValueError msg),
                     snd (__generate (SampleMore.session SampleMore.failing_engine))))
  /\ (extension_allowed (last3 "model.lp") = true ->
      exists msg, export_model "model.lp" (SampleMore.session SampleMore.failing_engine)
                  = (Raise (TypeError msg),
                     snd (__generate (SampleMore.session SampleMore.failing_engine))))
  /\ compile "model.lp" (SampleMore.session SampleMore.failing_engine)
     = (Ok tt,
        put_opl (snd (__generate (SampleMore.session SampleMore.failing_engine)))
                (opl_compile "model.lp"
                   (_opl (snd (__generate (SampleMore.session SampleMore.failing_engine))))))
  /\ exists e st0,
       generate_try (SampleMore.session SampleMore.failing_engine) = (Raise e, st0)
       /\ stdout (snd (__generate (SampleMore.session SampleMore.failing_engine)))
          = stdout st0 ++ [exn_msg e].
Proof.
  apply generation_failure_by_operation.
  reflexivity.
Defined.

Lemma print_relaxation_on_sample_cp :
  exists msg,
    print_relaxation (SampleMore.session SampleMore.cp_engine)
    = (Raise (ValueError msg), snd (__generate (SampleMore.session SampleMore.cp_engine))).
Proof.
  apply print_relaxation_on_cp.
  - reflexivity.
  - reflexivity.
Defined.

Lemma output_table_names_of_sample_session :
  _get_report_table_names (SampleMore.session SampleMore.cplex_engine)
  = (Ok (map (@elt_getName Sample.float)
             (filter (@is_tuple_set_element Sample.float)
                     [SampleMore.result_element; SampleMore.cost_element])),
     SampleMore.session SampleMore.cplex_engine)
  /\ _get_report_table_names (SampleMore.session SampleMore.ghost_engine)
     = (Raise (EngineError "no element ghost"), SampleMore.session SampleMore.ghost_engine).
Proof.
  split.
  - apply output_table_names_lists_tuple_sets.
    repeat constructor.
  - apply (output_table_names_lists_tuple_sets
             (SampleMore.session SampleMore.ghost_engine) [SampleMore.result_element])
      with (names := ["Result"]) (rest := ["cost"]).
    + reflexivity.
    + repeat constructor.
    + reflexivity.
Defined.

Lemma late_input_on_generated_session :
  __generate (set_input "Late" (Some (VList Sample.items_rows))
                (snd (run (Sample.session Sample.cplex_engine))))
  = (true, set_input "Late" (Some (VList Sample.items_rows))
             (snd (run (Sample.session Sample.cplex_engine))))
  /\ forall c,
       In c (new_calls
               (set_input "Late" (Some (VList Sample.items_rows))
                  (snd (run (Sample.session Sample.cplex_engine))))
               (snd (run (set_input "Late" (Some (VList Sample.items_rows))
                            (snd (run (Sample.session Sample.cplex_engine))))))) ->
       is_generation_call c = false.
Proof.
  apply inputs_after_generation_are_ignored.
  reflexivity.
Defined.

Lemma to_sql_of_sample_result :
  exists st',
     _to_sql (fun _ => true) "Result" (SampleMore.session SampleMore.cplex_engine) []
     = (Ok tt, st',
        [] ++ con_execute "DELETE FROM Result"
           :: match zip_star SampleMore.result_columns with
              | [] => []
              | row :: _ =>
                  [con_execute_rows
                     ("INSERT INTO " ++ "Result" ++ " VALUES ("
                        ++ wildcards (List.length row) ++ ")")%string
                     (zip_star SampleMore.result_columns)]
              end).
Proof.
  destruct (to_sql_statements (fun _ => true) "Result"
              (SampleMore.session SampleMore.cplex_engine) []) as [_ H].
  destruct (H SampleMore.result_element SampleMore.result_set SampleMore.result_columns
              eq_refl eq_refl eq_refl sample_result_columns) as [_ Hins].
  exact (Hins eq_refl).
Defined.

Lemma getFields_answers_from_cache :
  _getFields [(0%nat, [OPL_STRING])] Sample.items_schema
  = (([OPL_STRING], 1%nat), [(0%nat, [OPL_STRING])]).
Proof.
  apply (getFields_is_cached [(0%nat, [OPL_STRING])] Sample.items_schema).
  reflexivity.
Defined.
